(** * TypeGuards: a shallow embedding of the composition and evaluation engine

    The development follows [index.ts] of @typeguards/core 1.1.0: the value
    dispatcher [validateValue], the object validator [validateObject], the
    shallow transformer [transformObject], the guard [constructor] with its
    [config] and [definition] methods, the combinators, the schema
    operators, [createSchema] and [Union].  Of the leaves it has the ones
    that test [typeof], the number and big-integer leaves, [Null] and the
    wildcards; the leaves that convert strings or test [instanceof] rest
    on host functions and are left out.

    Host values are modelled as first-order data.  What the engine observes
    of a value is its [typeof], whether it is an array, what
    [Object.prototype.toString] reports for it, its own keys, its own
    properties, its identity under [===], and whether its own properties
    are writable (an [Object.freeze]d object has none that is).  Accessor
    properties and proxies are outside the model, numbers are integers or
    [NaN], strings are byte strings, a number in a key list is a
    non-negative safe integer, and a value under validation holds no type
    guard.

    [validate] is a function to [bool]: on such values no step of the
    validating code throws, and the closures a caller hands to [config]
    are taken to be total.  [transform] allocates objects and can throw,
    so it is a computation over the next free object identity that
    completes normally or throws. *)

From Stdlib Require Import List String Ascii ZArith Bool Arith Lia DecimalString.
From Stdlib Require Import Permutation.
Import ListNotations.
Open Scope string_scope.
Open Scope list_scope.
Set Warnings "-register-all".

(** ** Host values *)

(** The identity of an object: two object values are [===] exactly when
    they are the same object. *)
Definition Ref := nat.

(** A property key as [Reflect.ownKeys] returns it: a string or a symbol. *)
Inductive Key : Type :=
| KString (s : string)
| KSymbol (id : nat).

Definition Key_eqb (a b : Key) : bool :=
  match a, b with
  | KString s, KString t => String.eqb s t
  | KSymbol i, KSymbol j => Nat.eqb i j
  | _, _ => false
  end.

(** [Number.MAX_SAFE_INTEGER] *)
Definition maxSafeInteger : N := 9007199254740991%N.

(** A key as a caller writes it in a key list: a number there is a
    different value from the string [Reflect.ownKeys] reports.  The
    numbers are the non-negative safe integers, which are numbers of the
    host exactly and which [String] writes as their decimal numeral. *)
Inductive KeyArg : Type :=
| AString (s : string)
| ANumber (n : N) (safe : N.leb n maxSafeInteger = true)
| ASymbol (id : nat).

Inductive Value : Type :=
| VUndefined
| VNull
| VBoolean (b : bool)
| VNumber (n : Z)
| VNaN
| VBigInt (n : Z)
| VString (s : string)
| VSymbol (id : nat)
| VFunction (r : Ref)
| VArray (r : Ref) (frozen : bool) (elems : list Value)
    (** an array *)
| VObject (r : Ref) (frozen : bool) (own : list (Key * Value))
    (** an ordinary object that [toString] reports as [[object Object]] *)
| VInstance (r : Ref) (frozen : bool) (cls : string) (inheritedTag : bool)
            (own : list (Key * Value)).
    (** any other object ([Map], [Date], ...): [cls] is what [toString]
        reports, [inheritedTag] tells whether that tag is a
        [Symbol.toStringTag] property found along the prototype chain
        ([Map], [Set], [Promise]) or comes from an internal slot of the
        object itself ([Date], [RegExp]) *)

Inductive JSType : Type :=
| TUndefined | TBoolean | TNumber | TBigInt | TString | TSymbol | TFunction | TObject.

Definition JSType_eqb (a b : JSType) : bool :=
  match a, b with
  | TUndefined, TUndefined | TBoolean, TBoolean | TNumber, TNumber
  | TBigInt, TBigInt | TString, TString | TSymbol, TSymbol
  | TFunction, TFunction | TObject, TObject => true
  | _, _ => false
  end.

Definition typeof (v : Value) : JSType :=
  match v with
  | VUndefined => TUndefined
  | VNull => TObject
  | VBoolean _ => TBoolean
  | VNumber _ | VNaN => TNumber
  | VBigInt _ => TBigInt
  | VString _ => TString
  | VSymbol _ => TSymbol
  | VFunction _ => TFunction
  | VArray _ _ _ | VObject _ _ _ | VInstance _ _ _ _ _ => TObject
  end.

Definition refOf (v : Value) : option Ref :=
  match v with
  | VFunction r | VArray r _ _ | VObject r _ _ | VInstance r _ _ _ _ => Some r
  | _ => None
  end.

(** [a === b]: primitives by value ([NaN] equals nothing), objects and
    functions by identity. *)
Definition strict_eq (a b : Value) : bool :=
  match a, b with
  | VUndefined, VUndefined => true
  | VNull, VNull => true
  | VBoolean x, VBoolean y => Bool.eqb x y
  | VNumber x, VNumber y => Z.eqb x y
  | VBigInt x, VBigInt y => Z.eqb x y
  | VString x, VString y => String.eqb x y
  | VSymbol x, VSymbol y => Nat.eqb x y
  | _, _ =>
      match refOf a, refOf b with
      | Some r, Some r' => JSType_eqb (typeof a) (typeof b) && Nat.eqb r r'
      | _, _ => false
      end
  end.

Definition isArray (v : Value) : bool :=
  match v with VArray _ _ _ => true | _ => false end.

Definition isFrozen (v : Value) : bool :=
  match v with
  | VArray _ f _ | VObject _ f _ | VInstance _ f _ _ _ => f
  | _ => false
  end.

(** [isPlainObject]: [toString.call(obj) === '[object Object]']. *)
Definition isPlainObject (v : Value) : bool :=
  match v with VObject _ _ _ => true | _ => false end.

(** The key of array index [i]. *)
Definition indexKey (i : nat) : Key :=
  KString (NilEmpty.string_of_uint (Nat.to_uint i)).

Fixpoint indexed (i : nat) (elems : list Value) : list (Key * Value) :=
  match elems with
  | [] => []
  | v :: rest => (indexKey i, v) :: indexed (S i) rest
  end.

(** The own properties of an object, in [Reflect.ownKeys] order; an array
    has its indices and then [length]. *)
Definition ownEntries (v : Value) : list (Key * Value) :=
  match v with
  | VArray _ _ elems =>
      indexed 0 elems ++ [(KString "length", VNumber (Z.of_nat (List.length elems)))]
  | VObject _ _ own => own
  | VInstance _ _ _ _ own => own
  | _ => []
  end.

Definition ownKeys (v : Value) : list Key := map fst (ownEntries v).

Fixpoint lookup {A : Type} (k : Key) (l : list (Key * A)) : option A :=
  match l with
  | [] => None
  | (k', a) :: rest => if Key_eqb k k' then Some a else lookup k rest
  end.

(** [obj[k]] for an own key [k]; [undefined] when there is none. *)
Definition getOwn (obj : Value) (k : Key) : Value :=
  match lookup k (ownEntries obj) with
  | Some v => v
  | None => VUndefined
  end.

Definition includes (keys : list Key) (k : Key) : bool :=
  existsb (Key_eqb k) keys.

(** ** Completions

    [transform] runs host code that allocates objects and may throw.  A
    computation takes the next free [Ref] and either completes normally
    with a result and the next free [Ref], or throws. *)

Inductive Error : Type :=
| TypeError
| Thrown (v : Value).

Inductive Completion (A : Type) : Type :=
| Normal (a : A) (next : Ref)
| Throw (e : Error).
Arguments Normal {A} a next.
Arguments Throw {A} e.

Definition M (A : Type) : Type := Ref -> Completion A.

Definition ret {A} (a : A) : M A := fun s => Normal a s.
Definition throw {A} (e : Error) : M A := fun _ => Throw e.
Definition bind {A B} (m : M A) (f : A -> M B) : M B :=
  fun s => match m s with
           | Normal a s' => f a s'
           | Throw e => Throw e
           end.
Definition alloc : M Ref := fun s => Normal s (S s).

Notation "x <- m ;; k" := (bind m (fun x => k))
  (at level 61, m at next level, right associativity).

Fixpoint mapM {A B} (f : A -> M B) (l : list A) : M (list B) :=
  match l with
  | [] => ret []
  | a :: rest => b <- f a ;; bs <- mapM f rest ;; ret (b :: bs)
  end.

(** ** Type definitions and type guards *)

(** A [TypeDefinition] is a type guard, an object literal whose properties
    are type definitions (a [SchemaDefinition]), or any other value, taken
    literally.  A guard carries under its [DEF] key either the tag
    ['typeguard'] ([None]) or a schema definition. A schema definition
    records whether the object is frozen, its own properties and, behind
    them, the properties it inherits through its prototype ([Pick] and
    [Omit] build their definitions with [Object.create]). *)
Inductive TypeDefinition : Type :=
| DGuard (g : TypeGuard)
| DShape (d : SchemaDefinition)
| DLit (v : Value)
with TypeGuard : Type :=
| mkTypeGuard (validate : Value -> bool) (transform : Value -> M Value)
              (DEF : option SchemaDefinition)
with SchemaDefinition : Type :=
| SchemaObject (frozen : bool)
               (own : list (Key * TypeDefinition))
               (inherited : list (Key * TypeDefinition)).

(** A definition that is not frozen. *)
Abbreviation mkSchema := (SchemaObject false).

Definition validate (g : TypeGuard) : Value -> bool :=
  match g with mkTypeGuard v _ _ => v end.
Definition transform (g : TypeGuard) : Value -> M Value :=
  match g with mkTypeGuard _ t _ => t end.
Definition DEF (g : TypeGuard) : option SchemaDefinition :=
  match g with mkTypeGuard _ _ d => d end.
Definition own (d : SchemaDefinition) : list (Key * TypeDefinition) :=
  match d with SchemaObject _ o _ => o end.
Definition inherited (d : SchemaDefinition) : list (Key * TypeDefinition) :=
  match d with SchemaObject _ _ i => i end.
Definition frozenDef (d : SchemaDefinition) : bool :=
  match d with SchemaObject f _ _ => f end.

(** [Reflect.ownKeys(definition)] *)
Definition defKeys (d : SchemaDefinition) : list Key := map fst (own d).

(** [definition[k]]: an own property, else an inherited one, else
    [undefined]. *)
Definition getDef (d : SchemaDefinition) (k : Key) : TypeDefinition :=
  match lookup k (own d ++ inherited d) with
  | Some t => t
  | None => DLit VUndefined
  end.

(** [Object.create(null)] and [Object.create(definition)] *)
Definition emptySchema : SchemaDefinition := mkSchema [] [].
Definition createFrom (d : SchemaDefinition) : SchemaDefinition :=
  mkSchema [] (own d ++ inherited d).

(** A literal object read as a schema definition. *)
Definition literalEntries (l : list (Key * Value)) : list (Key * TypeDefinition) :=
  map (fun kv => (fst kv, DLit (snd kv))) l.
Definition literalSchema (l : list (Key * Value)) : SchemaDefinition :=
  mkSchema (literalEntries l) [].

Definition isTypeGuard (t : TypeDefinition) : bool :=
  match t with DGuard _ => true | _ => false end.

(** [isSchemaTypeGuard]: a guard whose [DEF] is a plain object. *)
Definition isSchemaTypeGuard (t : TypeDefinition) : bool :=
  match t with
  | DGuard g => match DEF g with Some _ => true | None => false end
  | _ => false
  end.

(** ** The value dispatcher and the object validator *)

Fixpoint identicalElems (a b : list Value) : bool :=
  match a, b with
  | [], [] => true
  | x :: a', y :: b' => strict_eq x y && identicalElems a' b'
  | _, _ => false
  end.

Definition isIdenticalArray (arr1 arr2 : Value) : bool :=
  match arr1, arr2 with
  | VArray _ _ a, VArray _ _ b =>
      Nat.eqb (List.length a) (List.length b) && identicalElems a b
  | _, _ => false
  end.

(** The body of [validateObject], over the test [checkKey value k] that
    stands for [validateValue(value, definition[k])]. *)
Definition validateObjectGen (checkKey : Value -> Key -> bool)
           (obj : Value) (dKeys : list Key) (partial : bool) : bool :=
  (* Check type *)
  isPlainObject obj &&
  (* Check keys *)
  (partial || Nat.eqb (List.length (ownKeys obj)) (List.length dKeys)) &&
  forallb (fun k => includes dKeys k) (ownKeys obj) &&
  (* Check values *)
  forallb (fun k =>
             let value := getOwn obj k in
             if partial && JSType_eqb (typeof value) TUndefined then true
             else checkKey value k)
          (ownKeys obj).

(** [f (entries[k])], or [missing] when [entries] has no [k]. *)
Definition findCheck {D : Type} (f : D -> bool) (k : Key) :=
  fix go (missing : bool) (entries : list (Key * D)) : bool :=
    match entries with
    | [] => missing
    | (k', d) :: rest => if Key_eqb k k' then f d else go missing rest
    end.

(** [validateValue] where the definition is a literal value. *)
Fixpoint validateLiteral (value : Value) (definition : Value) {struct definition} : bool :=
  match definition with
  | VArray _ _ _ => isIdenticalArray value definition
  | VNull =>
      if negb (JSType_eqb (typeof value) TObject) then false
      else strict_eq value VNull
  | VObject _ _ entries =>
      if negb (JSType_eqb (typeof value) TObject) then false
      else isPlainObject value &&
           validateObjectGen
             (fun v k => findCheck (validateLiteral v) k (strict_eq VUndefined v) entries)
             value (map fst entries) false
  | VInstance _ _ _ _ _ =>
      if negb (JSType_eqb (typeof value) TObject) then false
      else strict_eq definition value
  | _ =>
      (* Primitive types, function, undefined. *)
      strict_eq definition value
  end.

Fixpoint validateValue (value : Value) (definition : TypeDefinition) {struct definition} : bool :=
  match definition with
  | DGuard g =>
      (* If `definition` is a type guard *)
      validate g value
  | DShape (SchemaObject _ o i) =>
      if negb (JSType_eqb (typeof value) TObject) then false
      else isPlainObject value &&
           validateObjectGen
             (fun v k =>
                findCheck (validateValue v) k
                  (findCheck (validateValue v) k (strict_eq VUndefined v) i) o)
             value (map fst o) false
  | DLit lit => validateLiteral value lit
  end.

Definition validateObject (obj : Value) (definition : SchemaDefinition)
           (partial : bool) : bool :=
  validateObjectGen (fun v k => validateValue v (getDef definition k))
                    obj (defKeys definition) partial.

(** ** The transformer *)

(** [newObj[key] = v] where [newObj] was made by [Object.create(obj)] and
    has no own [key] yet while [obj] has: the assignment looks the property
    up along the prototype chain, finds [obj]'s own data property, and in
    strict code throws a [TypeError] when that property is not writable,
    which is the case for every own property of a frozen object. *)
Definition assignOver (obj : Value) : M unit :=
  if isFrozen obj then throw TypeError else ret tt.

(** The object [Object.create(obj)] has become once its properties are
    assigned: an ordinary object, which [toString] reports as
    [[object Object]] unless it inherits a [Symbol.toStringTag]. *)
Definition created (obj : Value) (r : Ref) (entries : list (Key * Value)) : Value :=
  match obj with
  | VInstance _ _ cls true _ => VInstance r false cls true entries
  | _ => VObject r false entries
  end.

Definition transformEntry (obj : Value) (definition : SchemaDefinition)
           (key : Key) : M (Key * Value) :=
  let type := getDef definition key in
  let value := getOwn obj key in
  v <- match type with
       | DGuard g => transform g value
       | _ => ret value
       end ;;
  _ <- assignOver obj ;;
  ret (key, v).

(** Nested objects will not be transformed. *)
Definition transformObject (obj : Value) (definition : SchemaDefinition) : M Value :=
  if negb (JSType_eqb (typeof obj) TObject) || strict_eq obj VNull then ret obj
  else
    r <- alloc ;;
    entries <- mapM (transformEntry obj definition) (ownKeys obj) ;;
    ret (created obj r entries).

(** ** The guard constructor and its methods *)

Definition defaultTransformer (value : Value) : M Value := ret value.

(** [constructor(validate, transform, { definition })]; [None] stands for
    an omitted argument. *)
Definition constructor (validate : Value -> bool)
           (transform : option (Value -> M Value))
           (definition : option SchemaDefinition) : TypeGuard :=
  mkTypeGuard validate
              (match transform with Some t => t | None => defaultTransformer end)
              definition.

(** The argument of [config]: each of the two functions may be left out. *)
Record Configs : Type := mkConfigs {
  c_validate : option (Value -> bool);
  c_transform : option (Value -> M Value)
}.

(** [c => constructor(c.validate ?? validate, c.transform ?? transform)] *)
Definition config (g : TypeGuard) (c : Configs) : TypeGuard :=
  constructor
    (match c_validate c with Some v => v | None => validate g end)
    (Some (match c_transform c with Some t => t | None => transform g end))
    None.

(** The [definition(key?)] method; [None] is a call without argument.  The
    atomic tag is the string ['typeguard']. *)
Definition definition (g : TypeGuard) (key : option Key) : TypeDefinition :=
  match key with
  | None =>
      match DEF g with
      | Some d => DShape d
      | None => DLit (VString "typeguard")
      end
  | Some k =>
      match DEF g with
      | Some d => getDef d k
      | None => DLit VUndefined
      end
  end.

(** ** Leaves *)

Definition hasType (t : JSType) (value : Value) : bool := JSType_eqb (typeof value) t.

Definition Boolean : TypeGuard := constructor (hasType TBoolean) None None.
Definition Number : TypeGuard := constructor (hasType TNumber) None None.
Definition BigInt : TypeGuard := constructor (hasType TBigInt) None None.
Definition String_ : TypeGuard := constructor (hasType TString) None None.
Definition Symbol : TypeGuard := constructor (hasType TSymbol) None None.
Definition Undefined : TypeGuard := constructor (hasType TUndefined) None None.
Definition Null : TypeGuard := constructor (fun value => strict_eq value VNull) None None.
Definition Object : TypeGuard := constructor (hasType TObject) None None.
Definition Function : TypeGuard := constructor (hasType TFunction) None None.
Definition Never : TypeGuard :=
  constructor (fun _ => false) (Some (fun _ => ret VUndefined)) None.
Definition Unknown : TypeGuard := constructor (fun _ => true) None None.
Definition Any : TypeGuard := constructor (fun _ => true) None None.

(** ** Combinators *)

(** [type === undefined]: the argument was left out. *)
Definition isUndefinedDef (type : TypeDefinition) : bool :=
  match type with DLit VUndefined => true | _ => false end.

(** [isTypeGuard(type) ? type.transform(value) : value] *)
Definition transformWith (type : TypeDefinition) (value : Value) : M Value :=
  match type with
  | DGuard g => transform g value
  | _ => ret value
  end.

Definition Array (type : TypeDefinition) : TypeGuard :=
  constructor
    (fun value =>
       if isUndefinedDef type then isArray value
       else match value with
            | VArray _ _ elems => forallb (fun v => validateValue v type) elems
            | _ => false
            end)
    (Some (fun value =>
       match value, type with
       | VArray _ _ elems, DGuard g =>
           r <- alloc ;;
           mapped <- mapM (fun v => transform g v) elems ;;
           ret (VArray r false mapped)
       | _, _ => ret value
       end))
    None.

(** [value.split(delimiter)] for a string delimiter.  [skip] counts the
    characters of a matched delimiter still to pass over, [cur] holds the
    current part, last character first. *)
Fixpoint revString (cur : list ascii) (acc : string) : string :=
  match cur with
  | [] => acc
  | c :: rest => revString rest (String c acc)
  end.

Fixpoint splitFrom (delimiter : string) (skip : nat) (cur : list ascii) (s : string)
  : list string :=
  match s with
  | EmptyString => [revString cur EmptyString]
  | String c rest =>
      match skip with
      | S n => splitFrom delimiter n cur rest
      | O =>
          if String.prefix delimiter s
          then revString cur EmptyString
                 :: splitFrom delimiter (String.length delimiter - 1) [] rest
          else splitFrom delimiter O (c :: cur) rest
      end
  end.

Fixpoint characters (s : string) : list string :=
  match s with
  | EmptyString => []
  | String c rest => String c EmptyString :: characters rest
  end.

Definition split (s delimiter : string) : list string :=
  match delimiter with
  | EmptyString => characters s
  | _ => splitFrom delimiter O [] s
  end.

(** [StringArray(type, delimiter)]; the default delimiter is [","]. *)
Definition StringArray (type : TypeDefinition) (delimiter : string) : TypeGuard :=
  constructor
    (fun value =>
       match value with
       | VString s =>
           if isUndefinedDef type then true
           else forallb (fun v => validateValue (VString v) type) (split s delimiter)
       | _ => false
       end)
    (Some (fun value =>
       match value with
       | VString s =>
           r <- alloc ;;
           let arr := map VString (split s delimiter) in
           match type with
           | DGuard g =>
               r' <- alloc ;;
               mapped <- mapM (fun v => transform g v) arr ;;
               ret (VArray r' false mapped)
           | _ => ret (VArray r false arr)
           end
       | _ => ret value
       end))
    None.

Definition Optional (type : TypeDefinition) : TypeGuard :=
  constructor
    (fun value => if hasType TUndefined value then true else validateValue value type)
    (Some (transformWith type))
    None.

Definition Nullable (type : TypeDefinition) : TypeGuard :=
  constructor
    (fun value => if strict_eq value VNull then true else validateValue value type)
    (Some (transformWith type))
    None.

(** [value == null] holds of [null] and [undefined] only. *)
Definition looseNull (value : Value) : bool :=
  match value with VNull | VUndefined => true | _ => false end.

Definition NonNullable (type : TypeDefinition) : TypeGuard :=
  constructor
    (fun value => if looseNull value then false else validateValue value type)
    (Some (transformWith type))
    None.

Definition Const (definition : Value) : TypeGuard :=
  constructor (fun value => validateValue value (DLit definition)) None None.

(** The [keys] argument of [Record]: an array of keys or a type guard. *)
Inductive RecordKeys : Type :=
| KeysArray (keys : list KeyArg)
| KeysGuard (g : TypeGuard).

Definition keyValue (k : Key) : Value :=
  match k with
  | KString s => VString s
  | KSymbol id => VSymbol id
  end.

(** [typeof k === 'number' ? String(k) : k] *)
Definition validKey (k : KeyArg) : Key :=
  match k with
  | AString s => KString s
  | ANumber n _ => KString (NilEmpty.string_of_uint (N.to_uint n))
  | ASymbol id => KSymbol id
  end.

(** The check [Record] makes of one own value: the guard's [validate], or
    [value !== obj[key]] for any other definition.  An object literal
    holding guards is never the candidate's property itself. *)
Definition recordValueOk (value : TypeDefinition) (v : Value) : bool :=
  match value with
  | DGuard g => validate g v
  | DShape _ => false
  | DLit lit => strict_eq lit v
  end.

Definition recordKeyOk (keys : RecordKeys) (key : Key) : bool :=
  match keys with
  | KeysGuard g => validate g (keyValue key)
  | KeysArray ks => includes (map validKey ks) key
  end.

(** [keys] has its declared type here, so the first test of the source,
    that [keys] is an array or a type guard, always passes. *)
Definition Record_ (keys : RecordKeys) (value : TypeDefinition) : TypeGuard :=
  constructor
    (fun obj =>
       (* Object being validated must be a plain object *)
       if negb (isPlainObject obj) then false
       else forallb (fun key => recordKeyOk keys key && recordValueOk value (getOwn obj key))
                    (ownKeys obj))
    None None.

(** ** Schemas *)

Definition Schema (definition : SchemaDefinition) : TypeGuard :=
  constructor (fun obj => validateObject obj definition false)
              (Some (fun obj => transformObject obj definition))
              (Some definition).

(** [isSchemaTypeGuard(schema) ? schema[DEF] : schema], for an argument of
    the declared type: a schema guard or a schema definition (an object
    literal).  Any other argument is outside the parameter's type and is
    not modelled ([None]). *)
Definition schemaOf (schema : TypeDefinition) : option SchemaDefinition :=
  match schema with
  | DGuard g => DEF g
  | DShape d => Some d
  | DLit (VObject _ f entries) => Some (SchemaObject f (literalEntries entries) [])
  | DLit _ => None
  end.

Definition PartialOf (definition : SchemaDefinition) : TypeGuard :=
  constructor (fun obj => validateObject obj definition true)
              (Some (fun obj => transformObject obj definition))
              (Some definition).

Definition RequiredOf (definition : SchemaDefinition) : TypeGuard :=
  constructor (fun obj => validateObject obj definition false)
              (Some (fun obj => transformObject obj definition))
              (Some definition).

(** [keys.includes(k)] for an own key [k]: a number in [keys] equals no
    own key. *)
Definition argIncludes (keys : list KeyArg) (k : Key) : bool :=
  existsb (fun a => match a with
                    | AString s => Key_eqb k (KString s)
                    | ASymbol id => Key_eqb k (KSymbol id)
                    | ANumber _ _ => false
                    end) keys.

(** The loop of [Pick] and [Omit]: the own entries of [definition] whose
    key passes [keep], assigned in order to [Object.create(definition)],
    a new object that is not frozen. *)
Definition narrowed (definition : SchemaDefinition) (keep : Key -> bool) : SchemaDefinition :=
  mkSchema (filter (fun kd => keep (fst kd)) (own definition))
           (inherited (createFrom definition)).

Definition PickOf (definition : SchemaDefinition) (keys : list KeyArg) : TypeGuard :=
  let pickedDefinition := narrowed definition (fun k => argIncludes keys k) in
  constructor (fun obj => validateObject obj pickedDefinition false)
              (Some (fun obj => transformObject obj pickedDefinition))
              (Some pickedDefinition).

Definition OmitOf (definition : SchemaDefinition) (keys : list KeyArg) : TypeGuard :=
  let remainedDefinition := narrowed definition (fun k => negb (argIncludes keys k)) in
  constructor (fun obj => validateObject obj remainedDefinition false)
              (Some (fun obj => transformObject obj remainedDefinition))
              (Some remainedDefinition).

Definition Partial (schema : TypeDefinition) : option TypeGuard :=
  option_map PartialOf (schemaOf schema).
Definition Required (schema : TypeDefinition) : option TypeGuard :=
  option_map RequiredOf (schemaOf schema).
(** What a call that builds a guard comes to: the guard, or an error
    thrown on the way. *)
Inductive Construction : Type :=
| Constructed (g : TypeGuard)
| Raised (e : Error).

(** The guard of a call that returned one. *)
Definition built (c : option Construction) : option TypeGuard :=
  match c with
  | Some (Constructed g) => Some g
  | _ => None
  end.

(** The first assignment [pickedDefinition[k] = definition[k]] of the loop
    throws a [TypeError] when [definition] is frozen: the new object has
    no own [k] and inherits it read-only (see [assignOver]).  So the loop
    throws when the definition is frozen and some own key is kept. *)
Definition assignRaises (definition : SchemaDefinition) (keep : Key -> bool) : bool :=
  frozenDef definition && existsb keep (defKeys definition).

Definition Pick (schema : TypeDefinition) (keys : list KeyArg) : option Construction :=
  match schemaOf schema with
  | Some d =>
      Some (if assignRaises d (fun k => argIncludes keys k)
            then Raised TypeError
            else Constructed (PickOf d keys))
  | None => None
  end.

Definition Omit (schema : TypeDefinition) (keys : list KeyArg) : option Construction :=
  match schemaOf schema with
  | Some d =>
      Some (if assignRaises d (fun k => negb (argIncludes keys k))
            then Raised TypeError
            else Constructed (OmitOf d keys))
  | None => None
  end.

(** ** Union *)

(** [o[k] = a] on an object with own entries [l]: an own property is
    overwritten in place, a new one comes last. *)
Fixpoint setProp {A : Type} (k : Key) (a : A) (l : list (Key * A)) : list (Key * A) :=
  match l with
  | [] => [(k, a)]
  | (k', a') :: rest =>
      if Key_eqb k k' then (k', a) :: rest else (k', a') :: setProp k a rest
  end.

(** The two variables of the merging loop: [unionDef], [undefined] until
    the first schema is met, and [commonProps]. *)
Record MergeState : Type := mkMerge {
  unionDef : option (list (Key * TypeDefinition));
  commonProps : list (Key * list TypeDefinition)
}.

Definition foldM {S A : Type} (f : S -> A -> option S) : list A -> S -> option S :=
  fix go (l : list A) (s : S) : option S :=
    match l with
    | [] => Some s
    | a :: rest => match f s a with Some s' => go rest s' | None => None end
    end.

Section Merge.
(** The recursive call [Union(...commonProps[key])]. *)
Variable U : list TypeDefinition -> option TypeGuard.

(** One turn of the inner loop, on [key] of [schemaDef]. *)
Definition mergeKey (schemaDef : SchemaDefinition)
           (uc : list (Key * TypeDefinition) * list (Key * list TypeDefinition))
           (key : Key)
  : option (list (Key * TypeDefinition) * list (Key * list TypeDefinition)) :=
  let (ud, cp) := uc in
  let schemaProp := getDef schemaDef key in
  match lookup key ud with
  | Some unionProp =>
      let props := match lookup key cp with
                   | Some ps => ps ++ [schemaProp]
                   | None => [unionProp; schemaProp]
                   end in
      match U props with
      | Some g => Some (setProp key (DGuard g) ud, setProp key props cp)
      | None => None
      end
  | None => Some (setProp key schemaProp ud, cp)
  end.

(** One turn of the outer loop, on the candidate [type]. *)
Definition mergeType (st : MergeState) (type : TypeDefinition) : option MergeState :=
  match schemaOf type with
  | None => Some st
  | Some schemaDef =>
      let ud := match unionDef st with Some ud => ud | None => [] end in
      match foldM (mergeKey schemaDef) (defKeys schemaDef) (ud, commonProps st) with
      | Some (ud', cp') => Some (mkMerge (Some ud') cp')
      | None => None
      end
  end.

Definition mergeAll (types : list TypeDefinition) : option MergeState :=
  foldM mergeType types (mkMerge None []).
End Merge.

(** The auxiliary guard over the merged definition. *)
Definition unionSchema (ud : option (list (Key * TypeDefinition))) : TypeGuard :=
  constructor
    (fun obj => match ud with
                | Some entries => validateObject obj (mkSchema entries []) false
                | None => false
                end)
    None None.

(** The guard [Union] returns once the merging loop has left [ud]. *)
Definition unionGuard (types : list TypeDefinition)
           (ud : option (list (Key * TypeDefinition))) : TypeGuard :=
  constructor
    (fun value =>
       if negb (isPlainObject value)
       then existsb (fun type => validateValue value type) types
       else existsb (fun type => match type with
                                 | DGuard g => validate g value
                                 | _ => validateValue value type
                                 end)
                    (DGuard (unionSchema ud) :: types))
    (Some (fun value =>
       match find (fun type => validateValue value type) types with
       | Some (DGuard g) => transform g value
       | _ => ret value
       end))
    (option_map (fun entries => mkSchema entries []) ud).

(** [Union] calls itself on the definitions that candidates give to a
    shared key.  [fuel] bounds the depth of these calls; [None] is a run
    that would need more. *)
Fixpoint Union_fuel (fuel : nat) (types : list TypeDefinition) : option TypeGuard :=
  match fuel with
  | O => None
  | S n =>
      match mergeAll (Union_fuel n) types with
      | Some st => Some (unionGuard types (unionDef st))
      | None => None
      end
  end.

(** How deep schemas nest inside a definition. *)
Fixpoint vrank (v : Value) : nat :=
  match v with
  | VObject _ _ entries =>
      S ((fix go (l : list (Key * Value)) : nat :=
            match l with
            | [] => O
            | (_, x) :: rest => Nat.max (vrank x) (go rest)
            end) entries)
  | _ => O
  end.

Fixpoint rank (t : TypeDefinition) : nat :=
  let ranks := fix go (l : list (Key * TypeDefinition)) : nat :=
                 match l with
                 | [] => O
                 | (_, x) :: rest => Nat.max (rank x) (go rest)
                 end in
  match t with
  | DGuard (mkTypeGuard _ _ (Some (SchemaObject _ o _))) => S (ranks o)
  | DGuard (mkTypeGuard _ _ None) => O
  | DShape (SchemaObject _ o _) => S (ranks o)
  | DLit v => vrank v
  end.

Definition maxRank (types : list TypeDefinition) : nat :=
  fold_right (fun t m => Nat.max (rank t) m) O types.

(** [Union(...types)].  The fuel given always suffices
    ([Union_fuel_enough] below), so the fallback is never taken. *)
Definition Union (types : list TypeDefinition) : TypeGuard :=
  match Union_fuel (S (maxRank types)) types with
  | Some g => g
  | None => Never
  end.

(** ** Further leaves and the schema entry point *)

(** [value > 0] and [value < 0] on a number; [NaN] compares false. *)
Definition numberGt0 (value : Value) : bool :=
  match value with VNumber n => Z.ltb 0 n | _ => false end.
Definition numberLt0 (value : Value) : bool :=
  match value with VNumber n => Z.ltb n 0 | _ => false end.
Definition bigintGt0 (value : Value) : bool :=
  match value with VBigInt n => Z.ltb 0 n | _ => false end.
Definition bigintLt0 (value : Value) : bool :=
  match value with VBigInt n => Z.ltb n 0 | _ => false end.

(** [Number.isNaN(value)] *)
Definition isNaN (value : Value) : bool :=
  match value with VNaN => true | _ => false end.

Definition NaN : TypeGuard :=
  constructor (fun value => hasType TNumber value && isNaN value) None None.
Definition PositiveNumber : TypeGuard :=
  constructor (fun value => hasType TNumber value && numberGt0 value) None None.
Definition NegativeNumber : TypeGuard :=
  constructor (fun value => hasType TNumber value && numberLt0 value) None None.
Definition PositiveBigInt : TypeGuard :=
  constructor (fun value => hasType TBigInt value && bigintGt0 value) None None.
Definition NegativeBigInt : TypeGuard :=
  constructor (fun value => hasType TBigInt value && bigintLt0 value) None None.

(** [createSchema(factory)], on the value [schema] that [factory] returns:
    [Schema(isSchemaTypeGuard(schema) ? schema[DEF] : schema)]. *)
Definition createSchema (schema : TypeDefinition) : option TypeGuard :=
  option_map Schema (schemaOf schema).

(** The merged definition the loop of [Union] leaves behind when its
    recursive calls are calls of [Union] itself; [None] when no candidate
    is a schema. *)
Definition merged (types : list TypeDefinition) : option (list (Key * TypeDefinition)) :=
  match mergeAll (fun props => Some (Union props)) types with
  | Some st => unionDef st
  | None => None
  end.

Definition ranksOf (l : list (Key * TypeDefinition)) : nat :=
  fold_right (fun kd m => Nat.max (rank (snd kd)) m) O l.

(** What the merging loop maintains, for a bound [b] on the rank of the
    candidates' properties: the lists of [commonProps] and the entries of
    [unionDef] not yet widened hold definitions of rank below [b]. *)
Definition MergeInv (b : nat)
           (uc : list (Key * TypeDefinition) * list (Key * list TypeDefinition)) : Prop :=
  (forall k ps, lookup k (snd uc) = Some ps -> Forall (fun p => rank p < b) ps) /\
  (forall k d, lookup k (snd uc) = None -> lookup k (fst uc) = Some d -> rank d < b).

Definition StateInv (b : nat) (st : MergeState) : Prop :=
  MergeInv b (match unionDef st with Some ud => ud | None => [] end, commonProps st).

(** ** The schemas of the test suite *)

(** [Schema({ a: Number, b: String })] *)
Definition SchemaA : TypeGuard :=
  Schema (mkSchema [(KString "a", DGuard Number); (KString "b", DGuard String_)] []).

(** [Schema({ a: String })] *)
Definition SchemaB : TypeGuard :=
  Schema (mkSchema [(KString "a", DGuard String_)] []).

(** [Union(SchemaA, SchemaB)] *)
Definition UnionAB : TypeGuard := Union [DGuard SchemaA; DGuard SchemaB].

(** [unionDef] read as the object it is once initialised. *)
Definition udOf (st : MergeState) : list (Key * TypeDefinition) :=
  match unionDef st with Some ud => ud | None => [] end.

(** Some candidate in [types] is a schema: a schema guard or an object
    literal. *)
Definition hasShape (types : list TypeDefinition) : Prop :=
  exists t, In t types /\ schemaOf t <> None.

(** A schema with the keys [a], [b] and [c]. *)
Definition SchemaABC : SchemaDefinition :=
  mkSchema [(KString "a", DGuard Number); (KString "b", DGuard String_);
            (KString "c", DGuard Boolean)] [].

(** [Record(['a'], [1, 2])], and a candidate whose property [a] is another
    array with the same elements. *)
Definition RecordOfPair : TypeGuard :=
  Record_ (KeysArray [AString "a"]) (DLit (VArray 1 false [VNumber 1; VNumber 2])).

Definition pairHolder : Value :=
  VObject 3 false [(KString "a", VArray 2 false [VNumber 1; VNumber 2])].

(** [Schema({ a: Number })] and the frozen object [Object.freeze({ a: 1 })]. *)
Definition SchemaNum : TypeGuard := Schema (mkSchema [(KString "a", DGuard Number)] []).

Definition frozenOne (r : Ref) : Value := VObject r true [(KString "a", VNumber 1)].

(** ** Values without read-only properties *)

(** No object in [v] is frozen. *)
Fixpoint writableb (v : Value) : bool :=
  match v with
  | VArray _ f elems => negb f && forallb writableb elems
  | VObject _ f entries =>
      negb f &&
      (fix go (l : list (Key * Value)) : bool :=
         match l with
         | [] => true
         | (_, x) :: rest => writableb x && go rest
         end) entries
  | VInstance _ f _ _ entries =>
      negb f &&
      (fix go (l : list (Key * Value)) : bool :=
         match l with
         | [] => true
         | (_, x) :: rest => writableb x && go rest
         end) entries
  | _ => true
  end.

(** A transform returns normally on every value without frozen objects. *)
Definition Total (t : Value -> M Value) : Prop :=
  forall v s, writableb v = true -> exists r s', t v s = Normal r s'.

(** A definition whose transform, if it is a guard, is total. *)
Definition TotalDef (type : TypeDefinition) : Prop :=
  match type with
  | DGuard g => Total (transform g)
  | _ => True
  end.

(** ** What the merged definition holds *)

(** The definitions the schema candidates of [types] give to key [k], in
    candidate order. *)
Definition propsFor (k : Key) (types : list TypeDefinition) : list TypeDefinition :=
  flat_map (fun t => match schemaOf t with
                     | Some sd => if includes (defKeys sd) k then [getDef sd k] else []
                     | None => []
                     end) types.

(** A key given one definition keeps it; a key given several is widened
    to their union. *)
Definition widen (ds : list TypeDefinition) : option TypeDefinition :=
  match ds with
  | [] => None
  | [d] => Some d
  | _ => Some (DGuard (Union ds))
  end.

Definition shared (ds : list TypeDefinition) : option (list TypeDefinition) :=
  match ds with
  | _ :: _ :: _ => Some ds
  | _ => None
  end.

(** The state of the merging loop when the candidates met so far give
    key [k] the definitions [F k]. *)
Definition MergeSpec (F : Key -> list TypeDefinition)
           (uc : list (Key * TypeDefinition) * list (Key * list TypeDefinition)) : Prop :=
  forall k, lookup k (fst uc) = widen (F k) /\ lookup k (snd uc) = shared (F k).

(** ** Literal data *)

(** A value that is not an object or a function. *)
Definition isPrimitive (v : Value) : bool :=
  match v with
  | VFunction _ | VArray _ _ _ | VObject _ _ _ | VInstance _ _ _ _ _ => false
  | _ => true
  end.

(** Data that a literal definition matches structurally: primitives other
    than [NaN], arrays of such primitives, and plain objects of such data. *)
Fixpoint literalData (v : Value) : bool :=
  match v with
  | VNaN | VFunction _ | VInstance _ _ _ _ _ => false
  | VArray _ _ elems => forallb (fun x => isPrimitive x && negb (isNaN x)) elems
  | VObject _ _ entries =>
      (fix go (l : list (Key * Value)) : bool :=
         match l with
         | [] => true
         | (_, x) :: rest => literalData x && go rest
         end) entries
  | _ => true
  end.

(** [a] is a copy of [b]: the same data, whatever the identities of the
    objects and whether they are frozen. *)
Fixpoint sameData (a b : Value) : bool :=
  match a, b with
  | VArray _ _ xs, VArray _ _ ys =>
      (fix go (xs ys : list Value) : bool :=
         match xs, ys with
         | [], [] => true
         | x :: xs', y :: ys' => sameData x y && go xs' ys'
         | _, _ => false
         end) xs ys
  | VObject _ _ es, VObject _ _ fs =>
      (fix go (es fs : list (Key * Value)) : bool :=
         match es, fs with
         | [], [] => true
         | (k, x) :: es', (k', y) :: fs' => Key_eqb k k' && sameData x y && go es' fs'
         | _, _ => false
         end) es fs
  | VFunction _, _ | VInstance _ _ _ _ _, _
  | VArray _ _ _, _ | VObject _ _ _, _ => false
  | _, _ => strict_eq a b
  end.

(** * Properties *)

(** ** Keys, lists and lookups *)

Lemma Key_eqb_spec (a b : Key) : reflect (a = b) (Key_eqb a b).
Proof.
  destruct a as [s|i], b as [t|j]; simpl; try (constructor; discriminate).
  - destruct (String.eqb_spec s t); constructor; congruence.
  - destruct (Nat.eqb_spec i j); constructor; congruence.
Qed.

Lemma Key_eqb_refl (a : Key) : Key_eqb a a = true.
Proof. destruct (Key_eqb_spec a a); congruence. Qed.

Lemma Key_eqb_eq (a b : Key) : Key_eqb a b = true <-> a = b.
Proof. destruct (Key_eqb_spec a b); split; congruence. Qed.

Lemma lookup_app {A : Type} (k : Key) (l1 l2 : list (Key * A)) :
  lookup k (l1 ++ l2) =
  match lookup k l1 with Some a => Some a | None => lookup k l2 end.
Proof.
  induction l1 as [|[k' a] l1 IH]; simpl; [reflexivity|].
  destruct (Key_eqb k k'); [reflexivity | exact IH].
Qed.

Lemma lookup_none {A : Type} (k : Key) (l : list (Key * A)) :
  lookup k l = None <-> ~ In k (map fst l).
Proof.
  induction l as [|[k' a] l IH]; simpl.
  - split; [intros _ [] | reflexivity].
  - destruct (Key_eqb_spec k k') as [->|Hne].
    + split; [discriminate | intros H; exfalso; apply H; now left].
    + rewrite IH. split.
      * intros H [E|I]; [congruence | exact (H I)].
      * intros H I. apply H. now right.
Qed.

Lemma lookup_some_in {A : Type} (k : Key) (a : A) (l : list (Key * A)) :
  lookup k l = Some a -> In (k, a) l.
Proof.
  induction l as [|[k' a'] l IH]; simpl; [discriminate|].
  destruct (Key_eqb_spec k k') as [->|Hne].
  - intros [= ->]. now left.
  - intros H. right. exact (IH H).
Qed.

Lemma lookup_in_nodup {A : Type} (k : Key) (a : A) (l : list (Key * A)) :
  NoDup (map fst l) -> In (k, a) l -> lookup k l = Some a.
Proof.
  induction l as [|[k' a'] l IH]; simpl; [intros _ []|].
  intros Hnd [E|I].
  - injection E as -> ->. now rewrite Key_eqb_refl.
  - inversion Hnd as [|? ? Hni Hnd']; subst.
    destruct (Key_eqb_spec k k') as [->|Hne].
    + exfalso. apply Hni. apply (in_map fst) in I. exact I.
    + exact (IH Hnd' I).
Qed.

Lemma includes_In (keys : list Key) (k : Key) :
  includes keys k = true <-> In k keys.
Proof.
  unfold includes. rewrite existsb_exists. split.
  - intros [x [Hin Heq]]. apply Key_eqb_eq in Heq. now subst.
  - intros Hin. exists k. split; [exact Hin | apply Key_eqb_refl].
Qed.

Lemma isPlainObject_typeof (v : Value) :
  isPlainObject v = true -> JSType_eqb (typeof v) TObject = true.
Proof. destruct v; simpl; congruence. Qed.

(** ** Equations of the dispatcher *)

Lemma findCheck_lookup {D : Type} (f : D -> bool) (k : Key) (missing : bool)
      (entries : list (Key * D)) :
  findCheck f k missing entries =
  match lookup k entries with Some d => f d | None => missing end.
Proof.
  induction entries as [|[k' d] rest IH]; simpl; [reflexivity|].
  destruct (Key_eqb k k'); [reflexivity | exact IH].
Qed.

Lemma forallb_pointwise {A : Type} (f g : A -> bool) (l : list A) :
  (forall a, f a = g a) -> forallb f l = forallb g l.
Proof.
  intros H. induction l as [|a l IH]; simpl; [reflexivity|].
  now rewrite H, IH.
Qed.

Lemma validateObjectGen_ext (c1 c2 : Value -> Key -> bool) obj dKeys partial :
  (forall v k, c1 v k = c2 v k) ->
  validateObjectGen c1 obj dKeys partial = validateObjectGen c2 obj dKeys partial.
Proof.
  intros H. unfold validateObjectGen. f_equal.
  apply forallb_pointwise. intros k. simpl. now rewrite H.
Qed.

Lemma validateValue_undefined (v : Value) :
  validateValue v (DLit VUndefined) = strict_eq VUndefined v.
Proof. reflexivity. Qed.

(** [validateValue] on an object literal holding definitions: the value
    must be a plain object that [validateObject] accepts in exact mode. *)
Lemma validateValue_shape (v : Value) (d : SchemaDefinition) :
  validateValue v (DShape d) = isPlainObject v && validateObject v d false.
Proof.
  destruct d as [fz o i]. simpl.
  destruct (isPlainObject v) eqn:Hp.
  - rewrite (isPlainObject_typeof v Hp). simpl.
    unfold validateObject, defKeys. simpl.
    apply validateObjectGen_ext. intros w k.
    rewrite !findCheck_lookup. unfold getDef. simpl. rewrite lookup_app.
    destruct (lookup k o); [reflexivity|].
    destruct (lookup k i); reflexivity.
  - destruct (negb _); reflexivity.
Qed.

Lemma lookup_literalEntries (k : Key) (l : list (Key * Value)) :
  lookup k (literalEntries l) = option_map DLit (lookup k l).
Proof.
  induction l as [|[k' a] l IH]; simpl; [reflexivity|].
  destruct (Key_eqb k k'); [reflexivity | exact IH].
Qed.

(** A plain-object literal is the schema definition of its properties. *)
Lemma validateValue_literal_object (v : Value) r f entries :
  validateValue v (DLit (VObject r f entries)) =
  validateValue v (DShape (literalSchema entries)).
Proof.
  rewrite validateValue_shape. simpl.
  destruct (isPlainObject v) eqn:Hp.
  - rewrite (isPlainObject_typeof v Hp). simpl.
    unfold validateObject, defKeys, literalSchema, literalEntries. simpl.
    rewrite map_map. simpl.
    apply validateObjectGen_ext. intros w k.
    rewrite findCheck_lookup. unfold getDef. simpl. rewrite app_nil_r.
    fold (literalEntries entries). rewrite lookup_literalEntries.
    destruct (lookup k entries); reflexivity.
  - destruct (negb _); reflexivity.
Qed.

(** ** The recursion of [Union] *)

Lemma lookup_setProp {A : Type} (k k' : Key) (a : A) (l : list (Key * A)) :
  lookup k (setProp k' a l) = if Key_eqb k k' then Some a else lookup k l.
Proof.
  induction l as [|[k0 a0] l IH]; simpl.
  - destruct (Key_eqb k k'); reflexivity.
  - destruct (Key_eqb_spec k' k0) as [->|Hne]; simpl.
    + destruct (Key_eqb k k0); reflexivity.
    + destruct (Key_eqb_spec k k0) as [->|Hne'].
      * destruct (Key_eqb_spec k0 k'); [congruence | reflexivity].
      * exact IH.
Qed.

Lemma rank_shape fz (o i : list (Key * TypeDefinition)) :
  rank (DShape (SchemaObject fz o i)) = S (ranksOf o).
Proof.
  simpl. f_equal. induction o as [|[k d] o IH]; simpl; [reflexivity|].
  now rewrite IH.
Qed.

Lemma rank_guard v t fz (o i : list (Key * TypeDefinition)) :
  rank (DGuard (mkTypeGuard v t (Some (SchemaObject fz o i)))) = S (ranksOf o).
Proof.
  simpl. f_equal. induction o as [|[k d] o IH]; simpl; [reflexivity|].
  now rewrite IH.
Qed.

Lemma vrank_object r f (entries : list (Key * Value)) :
  vrank (VObject r f entries) = S (ranksOf (literalEntries entries)).
Proof.
  simpl. f_equal. induction entries as [|[k d] o IH]; simpl; [reflexivity|].
  now rewrite IH.
Qed.

Lemma ranksOf_in (k : Key) (d : TypeDefinition) (l : list (Key * TypeDefinition)) :
  In (k, d) l -> rank d <= ranksOf l.
Proof.
  induction l as [|[k' d'] l IH]; simpl; [intros []|].
  intros [E|I].
  - injection E as -> ->. lia.
  - specialize (IH I). lia.
Qed.

Lemma getDef_own (d : SchemaDefinition) (k : Key) :
  In k (defKeys d) -> In (k, getDef d k) (own d).
Proof.
  intros Hin. unfold getDef. rewrite lookup_app.
  destruct (lookup k (own d)) as [t|] eqn:E.
  - exact (lookup_some_in _ _ _ E).
  - apply lookup_none in E. contradiction.
Qed.

(** A property of a schema candidate sits strictly deeper than the
    candidate. *)
Lemma rank_property (type : TypeDefinition) (sd : SchemaDefinition) (k : Key) :
  schemaOf type = Some sd -> In k (defKeys sd) -> rank (getDef sd k) < rank type.
Proof.
  intros Hs Hin. apply getDef_own in Hin. apply ranksOf_in in Hin.
  destruct type as [[v t [d|]]|d|lit]; simpl in Hs; try discriminate.
  - injection Hs as ->. destruct sd as [fz o i]. rewrite rank_guard. simpl in Hin. lia.
  - injection Hs as ->. destruct sd as [fz o i]. rewrite rank_shape. simpl in Hin. lia.
  - destruct lit; try discriminate. injection Hs as <-.
    change (rank (DLit (VObject r frozen own0))) with (vrank (VObject r frozen own0)).
    rewrite vrank_object. simpl in Hin. lia.
Qed.

Lemma maxRank_in (t : TypeDefinition) (types : list TypeDefinition) :
  In t types -> rank t <= maxRank types.
Proof.
  induction types as [|t' types IH]; simpl; [intros []|].
  intros [->|I]; [lia | specialize (IH I); lia].
Qed.

Lemma maxRank_Forall (b : nat) (types : list TypeDefinition) :
  0 < b -> Forall (fun p => rank p < b) types -> maxRank types < b.
Proof.
  intros Hb H. induction H as [|t types Ht _ IH]; simpl; lia.
Qed.

Lemma foldM_inv {S A : Type} (P : S -> Prop) (f g : S -> A -> option S) (l : list A) :
  (forall s a, In a l -> P s -> exists s', f s a = Some s' /\ g s a = Some s' /\ P s') ->
  forall s, P s -> exists s', foldM f l s = Some s' /\ foldM g l s = Some s' /\ P s'.
Proof.
  induction l as [|a l IH]; intros Hstep s Hs; simpl.
  - exists s. auto.
  - destruct (Hstep s a (or_introl eq_refl) Hs) as [s1 [E1 [E2 P1]]].
    rewrite E1, E2. apply IH; [|exact P1].
    intros s0 a0 Hin. apply Hstep. now right.
Qed.

Section MergeAgree.
Variables U1 U2 : list TypeDefinition -> option TypeGuard.
Variable b : nat.
Hypothesis U_agree :
  forall props, maxRank props < b -> exists g, U1 props = Some g /\ U2 props = Some g.

Lemma mergeKey_agree (sd : SchemaDefinition) uc (key : Key) :
  0 < b -> rank (getDef sd key) < b -> MergeInv b uc ->
  exists uc', mergeKey U1 sd uc key = Some uc' /\
              mergeKey U2 sd uc key = Some uc' /\ MergeInv b uc'.
Proof.
  intros Hb Hr [Ha Hb']. destruct uc as [ud cp]. simpl in Ha, Hb'.
  unfold mergeKey.
  destruct (lookup key ud) as [unionProp|] eqn:Eud.
  - set (props := match lookup key cp with
                  | Some ps => ps ++ [getDef sd key]
                  | None => [unionProp; getDef sd key]
                  end).
    assert (Hprops : Forall (fun p => rank p < b) props).
    { unfold props. destruct (lookup key cp) as [ps|] eqn:Ecp.
      - apply Forall_app. split; [exact (Ha _ _ Ecp) | now constructor].
      - constructor; [exact (Hb' _ _ Ecp Eud) | now constructor]. }
    destruct (U_agree props (maxRank_Forall b props Hb Hprops)) as [g [E1 E2]].
    rewrite E1, E2. eexists. split; [reflexivity|]. split; [reflexivity|].
    split; simpl.
    + intros k ps. rewrite lookup_setProp.
      destruct (Key_eqb k key); [intros [= <-]; exact Hprops | apply Ha].
    + intros k d. rewrite !lookup_setProp.
      destruct (Key_eqb k key); [discriminate | apply Hb'].
  - eexists. split; [reflexivity|]. split; [reflexivity|].
    split; simpl.
    + exact Ha.
    + intros k d Hcp. rewrite lookup_setProp.
      destruct (Key_eqb k key); [intros [= <-]; exact Hr | now apply Hb'].
Qed.

Lemma mergeType_agree (st : MergeState) (type : TypeDefinition) :
  rank type <= b -> StateInv b st ->
  exists st', mergeType U1 st type = Some st' /\
              mergeType U2 st type = Some st' /\ StateInv b st'.
Proof.
  intros Hr Hst. unfold mergeType.
  destruct (schemaOf type) as [sd|] eqn:Es; [|exists st; auto].
  destruct (foldM_inv (MergeInv b) (mergeKey U1 sd) (mergeKey U2 sd) (defKeys sd))
    with (s := (match unionDef st with Some ud => ud | None => [] end, commonProps st))
    as [[ud' cp'] [E1 [E2 Hinv]]].
  - intros uc key Hin Huc.
    pose proof (rank_property type sd key Es Hin) as Hlt.
    apply mergeKey_agree; [lia | lia | exact Huc].
  - exact Hst.
  - rewrite E1, E2. eexists. split; [reflexivity|]. split; [reflexivity|].
    exact Hinv.
Qed.

Lemma mergeAll_agree (types : list TypeDefinition) :
  maxRank types <= b ->
  exists st, mergeAll U1 types = Some st /\ mergeAll U2 types = Some st.
Proof.
  intros Hr. unfold mergeAll.
  destruct (foldM_inv (StateInv b) (mergeType U1) (mergeType U2) types)
    with (s := mkMerge None []) as [st [E1 [E2 _]]].
  - intros s t Hin Hs. apply mergeType_agree; [|exact Hs].
    pose proof (maxRank_in t types Hin). lia.
  - split; simpl; intros; discriminate.
  - exists st. auto.
Qed.
End MergeAgree.

(** Any fuel above the rank of the candidates gives the same guard. *)
Lemma Union_fuel_stable (n : nat) :
  forall m types, maxRank types < n -> maxRank types < m ->
  exists g, Union_fuel n types = Some g /\ Union_fuel m types = Some g.
Proof.
  induction n as [|n IH]; intros m types Hn Hm; [lia|].
  destruct m as [|m]; [lia|]. simpl.
  destruct (mergeAll_agree (Union_fuel n) (Union_fuel m) (maxRank types))
    with (types := types) as [st [E1 E2]].
  - intros props Hp. apply IH; lia.
  - lia.
  - rewrite E1, E2. eexists. split; reflexivity.
Qed.

(** Enough fuel gives the result: [Union] never falls back. *)
Lemma Union_fuel_enough (n : nat) (types : list TypeDefinition) :
  maxRank types < n -> Union_fuel n types = Some (Union types).
Proof.
  intros Hn. unfold Union.
  destruct (Union_fuel_stable n (S (maxRank types)) types Hn (Nat.lt_succ_diag_r _))
    as [g [E1 E2]].
  now rewrite E1, E2.
Qed.

(** The equation of the source: [Union] builds its guard from the
    definition merged with [Union] itself as the recursive call. *)
Lemma Union_equation (types : list TypeDefinition) :
  Union types = unionGuard types (merged types).
Proof.
  pose proof (Union_fuel_enough (S (maxRank types)) types (Nat.lt_succ_diag_r _)) as E.
  simpl in E.
  destruct (mergeAll_agree (Union_fuel (maxRank types)) (fun props => Some (Union props))
                           (maxRank types))
    with (types := types) as [st [E1 E2]].
  - intros props Hp. exists (Union props). split; [|reflexivity].
    now apply Union_fuel_enough.
  - lia.
  - unfold merged. rewrite E2. rewrite E1 in E. now injection E as <-.
Qed.

(** ** Union: acceptance and transformation *)

Lemma existsb_pointwise {A : Type} (f g : A -> bool) (l : list A) :
  (forall a, f a = g a) -> existsb f l = existsb g l.
Proof.
  intros H. induction l as [|a l IH]; simpl; [reflexivity|].
  now rewrite H, IH.
Qed.

Lemma validate_unionGuard_plain types ud value :
  isPlainObject value = true ->
  validate (unionGuard types ud) value =
  validate (unionSchema ud) value || existsb (fun type => validateValue value type) types.
Proof.
  intros Hp. simpl. rewrite Hp. simpl. f_equal.
  apply existsb_pointwise. intros [g|d|lit]; reflexivity.
Qed.

(** C1. For [U = Union(Schema({a: Number, b: String}), Schema({a: String}))],
    [validate] accepts [{a:0,b:""}], [{a:""}] and the cross-variant
    [{a:"",b:""}], and rejects [{a:0}] and [{b:""}]; the merged definition
    has [a] widened to [Union(Number, String)] and keeps [b: String].  In
    general a plain object is accepted iff the merged schema guard, which
    validates against the merged definition in exact mode, accepts it or
    some candidate accepts it through [validateValue]. *)
Theorem C1_union_validate :
  (forall r f, validate UnionAB
     (VObject r f [(KString "a", VNumber 0); (KString "b", VString "")]) = true) /\
  (forall r f, validate UnionAB (VObject r f [(KString "a", VString "")]) = true) /\
  (forall r f, validate UnionAB
     (VObject r f [(KString "a", VString ""); (KString "b", VString "")]) = true) /\
  (forall r f, validate UnionAB (VObject r f [(KString "a", VNumber 0)]) = false) /\
  (forall r f, validate UnionAB (VObject r f [(KString "b", VString "")]) = false) /\
  merged [DGuard SchemaA; DGuard SchemaB] =
    Some [(KString "a", DGuard (Union [DGuard Number; DGuard String_]));
          (KString "b", DGuard String_)] /\
  (forall types value,
      isPlainObject value = true ->
      validate (Union types) value =
      validate (unionSchema (merged types)) value ||
      existsb (fun type => validateValue value type) types) /\
  (forall types value,
      validate (unionSchema (merged types)) value =
      match merged types with
      | Some M => validateObject value (mkSchema M []) false
      | None => false
      end).
Proof.
  repeat apply conj; try (intros r f; vm_compute; reflexivity).
  - vm_compute. reflexivity.
  - intros types value Hp. rewrite Union_equation.
    now apply validate_unionGuard_plain.
Qed.

Lemma C1_witness :
  isPlainObject (VObject 1 false [(KString "a", VString ""); (KString "b", VString "")])
  = true /\
  validate (Union [DGuard SchemaA; DGuard SchemaB])
           (VObject 1 false [(KString "a", VString ""); (KString "b", VString "")]) =
  validate (unionSchema (merged [DGuard SchemaA; DGuard SchemaB]))
           (VObject 1 false [(KString "a", VString ""); (KString "b", VString "")]) ||
  existsb (fun type =>
             validateValue
               (VObject 1 false [(KString "a", VString ""); (KString "b", VString "")]) type)
          [DGuard SchemaA; DGuard SchemaB].
Proof.
  split; [reflexivity|].
  destruct C1_union_validate as [_ [_ [_ [_ [_ [_ [H _]]]]]]].
  apply H. reflexivity.
Defined.

(** C7. [transform] of a union is decided by the first candidate, in
    declaration order, that [validateValue] accepts: a type guard
    transforms the value, and with any other candidate or none the value
    comes back unchanged.  The merged schema has no part in it: a value
    accepted through the merged schema alone comes back unchanged. *)
Theorem C7_union_transform :
  (forall types value,
      transform (Union types) value =
      match find (fun type => validateValue value type) types with
      | Some (DGuard g) => transform g value
      | _ => ret value
      end) /\
  (forall r f s,
      let value := VObject r f [(KString "a", VString ""); (KString "b", VString "")] in
      validate UnionAB value = true /\
      find (fun type => validateValue value type) [DGuard SchemaA; DGuard SchemaB] = None /\
      transform UnionAB value s = Normal value s).
Proof.
  split.
  - intros types value. rewrite Union_equation. reflexivity.
  - intros r f s. repeat apply conj; vm_compute; reflexivity.
Qed.

(** ** Union: the definition it carries *)

Lemma setProp_keys {A : Type} (k : Key) (a : A) (l : list (Key * A)) (x : Key) :
  In x (map fst (setProp k a l)) <-> x = k \/ In x (map fst l).
Proof.
  induction l as [|[k' a'] l IH]; simpl.
  - split; [intros [E|[]]; auto | intros [E|[]]; auto].
  - destruct (Key_eqb_spec k k') as [->|Hne]; simpl.
    + split; [intros [E|I]; auto | intros [E|[E|I]]; auto].
    + rewrite IH. split.
      * intros [E|[E|I]]; auto.
      * intros [E|[E|I]]; auto.
Qed.

Section MergeKeys.
Variable U : list TypeDefinition -> TypeGuard.

Lemma mergeKey_keys (sd : SchemaDefinition) uc (key : Key) :
  exists uc', mergeKey (fun props => Some (U props)) sd uc key = Some uc' /\
              forall x, In x (map fst (fst uc')) <-> x = key \/ In x (map fst (fst uc)).
Proof.
  destruct uc as [ud cp]. unfold mergeKey.
  destruct (lookup key ud); eexists; (split; [reflexivity|]);
    intros x; simpl; apply setProp_keys.
Qed.

Lemma mergeKeys_keys (sd : SchemaDefinition) (keys : list Key) :
  forall uc,
  exists uc', foldM (mergeKey (fun props => Some (U props)) sd) keys uc = Some uc' /\
              forall x, In x (map fst (fst uc')) <-> In x keys \/ In x (map fst (fst uc)).
Proof.
  induction keys as [|key keys IH]; intros uc; simpl.
  - exists uc. split; [reflexivity|]. intros x. tauto.
  - destruct (mergeKey_keys sd uc key) as [uc1 [E1 H1]]. rewrite E1.
    destruct (IH uc1) as [uc2 [E2 H2]]. exists uc2. split; [exact E2|].
    intros x. rewrite H2, H1. intuition (subst; auto).
Qed.

Lemma mergeType_keys (st : MergeState) (type : TypeDefinition) :
  exists st', mergeType (fun props => Some (U props)) st type = Some st' /\
    (unionDef st' = None <-> unionDef st = None /\ schemaOf type = None) /\
    (forall x, In x (map fst (udOf st')) <->
               In x (map fst (udOf st)) \/
               exists sd, schemaOf type = Some sd /\ In x (defKeys sd)).
Proof.
  unfold mergeType. destruct (schemaOf type) as [sd|] eqn:Es.
  - destruct (mergeKeys_keys sd (defKeys sd) (udOf st, commonProps st))
      as [[ud' cp'] [E H]].
    unfold udOf in E. rewrite E. eexists. split; [reflexivity|]. split.
    + simpl. split; [discriminate | intros [_ Hn]; discriminate].
    + intros x. unfold udOf at 1. simpl. simpl in H. rewrite H. split.
      * intros [I|I]; [right; exists sd; auto | now left].
      * intros [I|[sd' [[= <-] I]]]; auto.
  - exists st. split; [reflexivity|]. split.
    + tauto.
    + intros x. split; [now left | intros [I|[sd [Hd _]]]; [exact I | discriminate]].
Qed.

Lemma mergeTypes_keys (types : list TypeDefinition) :
  forall st,
  exists st', foldM (mergeType (fun props => Some (U props))) types st = Some st' /\
    (unionDef st' = None <->
     unionDef st = None /\ forall t, In t types -> schemaOf t = None) /\
    (forall x, In x (map fst (udOf st')) <->
               In x (map fst (udOf st)) \/
               exists t sd, In t types /\ schemaOf t = Some sd /\ In x (defKeys sd)).
Proof.
  induction types as [|type types IH]; intros st; simpl.
  - exists st. split; [reflexivity|]. split.
    + split; [intros H; split; [exact H | intros t []] | tauto].
    + intros x. split; [now left | intros [I|[t [sd [[] _]]]]; exact I].
  - destruct (mergeType_keys st type) as [st1 [E1 [N1 K1]]]. rewrite E1.
    destruct (IH st1) as [st2 [E2 [N2 K2]]]. exists st2.
    split; [exact E2|]. split.
    + rewrite N2, N1. split.
      * intros [[Hn Hs] Hall]. split; [exact Hn|].
        intros t [<-|I]; [exact Hs | now apply Hall].
      * intros [Hn Hall]. repeat split; auto.
    + intros x. rewrite K2, K1. split.
      * intros [[I|[sd [Hs I]]]|[t [sd [It [Hs I]]]]].
        -- now left.
        -- right. exists type, sd. auto.
        -- right. exists t, sd. auto.
      * intros [I|[t [sd [[<-|It] [Hs I]]]]].
        -- left. now left.
        -- left. right. exists sd. auto.
        -- right. exists t, sd. auto.
Qed.
End MergeKeys.

Lemma merged_spec (types : list TypeDefinition) :
  (merged types = None <-> forall t, In t types -> schemaOf t = None) /\
  (forall M, merged types = Some M ->
     forall x, In x (map fst M) <->
               exists t sd, In t types /\ schemaOf t = Some sd /\ In x (defKeys sd)).
Proof.
  unfold merged, mergeAll.
  destruct (mergeTypes_keys Union types (mkMerge None [])) as [st [E [N K]]].
  rewrite E. split.
  - rewrite N. simpl. tauto.
  - intros M HM x. specialize (K x). unfold udOf in K. rewrite HM in K.
    simpl in K. rewrite K. split; [intros [[]|H]; exact H | now right].
Qed.

(** ** Union: what the merged definition holds *)

Lemma MergeSpec_ext (F G : Key -> list TypeDefinition) uc :
  (forall k, F k = G k) -> MergeSpec F uc -> MergeSpec G uc.
Proof. intros H HF k. rewrite <- H. apply HF. Qed.

Lemma mergeKey_spec (sd : SchemaDefinition) (F : Key -> list TypeDefinition) uc (key : Key) :
  MergeSpec F uc ->
  exists uc', mergeKey (fun props => Some (Union props)) sd uc key = Some uc' /\
              MergeSpec (fun k => if Key_eqb k key then F k ++ [getDef sd key] else F k) uc'.
Proof.
  intros HF. destruct uc as [ud cp]. unfold mergeKey.
  destruct (HF key) as [Hu Hc]. simpl in Hu, Hc. rewrite Hu, Hc.
  destruct (F key) as [|d1 [|d2 rest]] eqn:EF; simpl;
    (eexists; split; [reflexivity|]); intros k; simpl;
    rewrite ?lookup_setProp;
    (destruct (Key_eqb_spec k key) as [->|Hne]; [rewrite EF | apply HF]).
  - simpl. split; [reflexivity | exact Hc].
  - simpl. split; reflexivity.
  - simpl. split; reflexivity.
Qed.

Lemma mergeKeys_spec (sd : SchemaDefinition) (keys : list Key) :
  NoDup keys ->
  forall F uc, MergeSpec F uc ->
  exists uc', foldM (mergeKey (fun props => Some (Union props)) sd) keys uc = Some uc' /\
              MergeSpec (fun k => F k ++ if includes keys k then [getDef sd k] else []) uc'.
Proof.
  induction keys as [|key keys IH]; intros Hnd F uc HF; simpl.
  - exists uc. split; [reflexivity|].
    apply (MergeSpec_ext F); [|exact HF]. intros k. now rewrite app_nil_r.
  - inversion Hnd as [|? ? Hni Hnd']; subst.
    destruct (mergeKey_spec sd F uc key HF) as [uc1 [E1 H1]]. rewrite E1.
    destruct (IH Hnd' _ uc1 H1) as [uc2 [E2 H2]]. exists uc2.
    split; [exact E2|].
    eapply MergeSpec_ext; [|exact H2]. intros k. simpl.
    destruct (Key_eqb_spec k key) as [->|Hne].
    + assert (Ei : includes keys key = false).
      { apply not_true_is_false. intros Hi. apply Hni. now apply includes_In. }
      rewrite Ei. simpl. now rewrite app_nil_r.
    + reflexivity.
Qed.

Lemma mergeTypes_spec (types : list TypeDefinition) :
  (forall t sd, In t types -> schemaOf t = Some sd -> NoDup (defKeys sd)) ->
  forall F st, MergeSpec F (udOf st, commonProps st) ->
  exists st', foldM (mergeType (fun props => Some (Union props))) types st = Some st' /\
              MergeSpec (fun k => F k ++ propsFor k types) (udOf st', commonProps st').
Proof.
  induction types as [|t types IH]; intros Hnd F st HF; simpl.
  - exists st. split; [reflexivity|].
    apply (MergeSpec_ext F); [|exact HF]. intros k. now rewrite app_nil_r.
  - assert (H1 : exists st1,
               mergeType (fun props => Some (Union props)) st t = Some st1 /\
               MergeSpec (fun k => F k ++ propsFor k [t]) (udOf st1, commonProps st1)).
    { unfold mergeType, propsFor. simpl. destruct (schemaOf t) as [sd|] eqn:Es.
      - destruct (mergeKeys_spec sd (defKeys sd) (Hnd t sd (or_introl eq_refl) Es)
                                 F (udOf st, commonProps st) HF) as [[ud' cp'] [E H]].
        unfold udOf in E. rewrite E. eexists. split; [reflexivity|].
        unfold udOf. simpl. eapply MergeSpec_ext; [|exact H].
        intros k. simpl. now rewrite app_nil_r.
      - exists st. split; [reflexivity|].
        apply (MergeSpec_ext F); [|exact HF]. intros k. simpl. now rewrite app_nil_r. }
    destruct H1 as [st1 [E1 H1]]. rewrite E1.
    destruct (IH (fun t' sd Hin => Hnd t' sd (or_intror Hin)) _ st1 H1) as [st2 [E2 H2]].
    exists st2. split; [exact E2|].
    eapply MergeSpec_ext; [|exact H2]. intros k. simpl.
    unfold propsFor. simpl. now rewrite app_nil_r, app_assoc.
Qed.

(** The merged definition gives every key the definition of the only
    schema candidate that declares it, or the union, in candidate order,
    of the definitions of the candidates that do. *)
Lemma merged_lookup (types : list TypeDefinition) (M : list (Key * TypeDefinition)) :
  (forall t sd, In t types -> schemaOf t = Some sd -> NoDup (defKeys sd)) ->
  merged types = Some M ->
  forall k, lookup k M = widen (propsFor k types).
Proof.
  intros Hnd HM k. unfold merged, mergeAll in HM.
  destruct (mergeTypes_spec types Hnd (fun _ => []) (mkMerge None [])) as [st [E H]].
  { intros k'. split; reflexivity. }
  rewrite E in HM. specialize (H k). destruct H as [H _].
  unfold udOf in H. rewrite HM in H. exact H.
Qed.

(** C10. When some candidate of [Union] is a schema guard or an object
    literal, the guard returned is schema-shaped: its [DEF] is the merged
    definition [M], whose own keys are the own keys of the schema
    candidates, each with the definition of the only candidate declaring
    it or with the union of the definitions of those that do,
    [isSchemaTypeGuard] holds of it, [definition()] and
    [definition(key)] expose [M] and its properties, and [Partial],
    [Required], [Pick] and [Omit] take it as a schema.  When no candidate
    is one, the guard carries the tag ['typeguard']. *)
Theorem C10_union_definition (types : list TypeDefinition) :
  (hasShape types ->
   exists M,
     merged types = Some M /\
     DEF (Union types) = Some (mkSchema M []) /\
     isSchemaTypeGuard (DGuard (Union types)) = true /\
     definition (Union types) None = DShape (mkSchema M []) /\
     (forall k, definition (Union types) (Some k) = getDef (mkSchema M []) k) /\
     (forall k, In k (defKeys (mkSchema M [])) <->
                exists t sd, In t types /\ schemaOf t = Some sd /\ In k (defKeys sd)) /\
     ((forall t sd, In t types -> schemaOf t = Some sd -> NoDup (defKeys sd)) ->
      forall k, lookup k M = widen (propsFor k types)) /\
     Partial (DGuard (Union types)) = Some (PartialOf (mkSchema M [])) /\
     Required (DGuard (Union types)) = Some (RequiredOf (mkSchema M [])) /\
     (forall keys, Pick (DGuard (Union types)) keys
                   = Some (Constructed (PickOf (mkSchema M []) keys))) /\
     (forall keys, Omit (DGuard (Union types)) keys
                   = Some (Constructed (OmitOf (mkSchema M []) keys)))) /\
  ((forall t, In t types -> schemaOf t = None) ->
   DEF (Union types) = None /\
   isSchemaTypeGuard (DGuard (Union types)) = false /\
   definition (Union types) None = DLit (VString "typeguard") /\
   (forall k, definition (Union types) (Some k) = DLit VUndefined)).
Proof.
  destruct (merged_spec types) as [HN HK].
  assert (HD : DEF (Union types) = option_map (fun e => mkSchema e []) (merged types))
    by (rewrite Union_equation; reflexivity).
  split.
  - intros [t [Hin Hs]].
    destruct (merged types) as [M|] eqn:EM.
    + exists M. simpl in HD.
      unfold Partial, Required, Pick, Omit, isSchemaTypeGuard, definition. simpl.
      rewrite HD. simpl. repeat apply conj; try reflexivity.
      * intros k. unfold defKeys. simpl. now apply HK.
      * intros Hnd k. now apply merged_lookup.
    + exfalso. apply Hs. apply HN; [reflexivity | exact Hin].
  - intros Hall. apply HN in Hall. rewrite Hall in HD. simpl in HD.
    unfold isSchemaTypeGuard, definition. rewrite HD. repeat apply conj; reflexivity.
Qed.

Lemma C10_witness :
  hasShape [DGuard SchemaA; DGuard SchemaB] /\
  exists M, DEF UnionAB = Some (mkSchema M []) /\
            forall k, In k (defKeys (mkSchema M [])) <->
                      exists t sd, In t [DGuard SchemaA; DGuard SchemaB] /\
                                   schemaOf t = Some sd /\ In k (defKeys sd).
Proof.
  assert (H : hasShape [DGuard SchemaA; DGuard SchemaB]).
  { exists (DGuard SchemaA). split; [now left | discriminate]. }
  split; [exact H|].
  destruct (proj1 (C10_union_definition [DGuard SchemaA; DGuard SchemaB]) H)
    as [M [_ [HD [_ [_ [_ [HK _]]]]]]].
  exists M. split; [exact HD | exact HK].
Defined.

(** ** The guard methods *)

(** C2. [config] returns a new guard whose [validate] and [transform] are
    the overrides where given and the guard's own otherwise, and with an
    empty record the behaviour is that of the guard.  The definition is
    not carried over: [config] calls [constructor] without it, so the
    guard returned has the tag ['typeguard'] whatever the guard had, and
    [Schema({a: Number, b: String}).config({})] is not schema-shaped. *)
Theorem C2_config_drops_definition :
  (forall g c, validate (config g c) =
               match c_validate c with Some v => v | None => validate g end) /\
  (forall g c, transform (config g c) =
               match c_transform c with Some t => t | None => transform g end) /\
  (forall g, validate (config g (mkConfigs None None)) = validate g /\
             transform (config g (mkConfigs None None)) = transform g) /\
  (forall g c, DEF (config g c) = None) /\
  DEF SchemaA =
    Some (mkSchema [(KString "a", DGuard Number); (KString "b", DGuard String_)] []) /\
  DEF (config SchemaA (mkConfigs None None)) = None /\
  isSchemaTypeGuard (DGuard SchemaA) = true /\
  isSchemaTypeGuard (DGuard (config SchemaA (mkConfigs None None))) = false /\
  definition (config SchemaA (mkConfigs None None)) None = DLit (VString "typeguard").
Proof.
  repeat apply conj; try reflexivity.
  intros g. split; reflexivity.
Qed.

(** ** The object validator *)

Lemma typeof_undefined (v : Value) :
  JSType_eqb (typeof v) TUndefined = true <-> v = VUndefined.
Proof. destruct v; simpl; split; congruence. Qed.

Lemma validateObjectGen_true (c : Value -> Key -> bool) obj dKeys partial :
  validateObjectGen c obj dKeys partial = true <->
  isPlainObject obj = true /\
  (partial = true \/ List.length (ownKeys obj) = List.length dKeys) /\
  (forall k, In k (ownKeys obj) -> In k dKeys) /\
  (forall k, In k (ownKeys obj) ->
             (partial = true /\ getOwn obj k = VUndefined) \/
             c (getOwn obj k) k = true).
Proof.
  unfold validateObjectGen.
  rewrite !andb_true_iff, orb_true_iff, Nat.eqb_eq, !forallb_forall.
  split.
  - intros [[[Hp Hl] Hk] Hv]. repeat apply conj; auto.
    + intros k Hin. apply includes_In. now apply Hk.
    + intros k Hin. specialize (Hv k Hin). simpl in Hv.
      destruct partial; simpl in Hv.
      * destruct (JSType_eqb (typeof (getOwn obj k)) TUndefined) eqn:E.
        -- left. split; [reflexivity | now apply typeof_undefined].
        -- now right.
      * now right.
  - intros [Hp [Hl [Hk Hv]]]. repeat apply conj; auto.
    + intros k Hin. apply includes_In. now apply Hk.
    + intros k Hin. simpl. destruct (Hv k Hin) as [[-> E]|E].
      * rewrite E. reflexivity.
      * destruct (partial && _); [reflexivity | exact E].
Qed.

Lemma same_keys (l1 l2 : list Key) :
  NoDup l1 -> NoDup l2 ->
  (List.length l1 = List.length l2 /\ (forall k, In k l1 -> In k l2)) <->
  (forall k, In k l1 <-> In k l2).
Proof.
  intros N1 N2. split.
  - intros [Hl Hi] k. split; [apply Hi|].
    apply (NoDup_length_incl N1); [lia | exact Hi].
  - intros H. split.
    + apply Nat.le_antisymm; apply NoDup_incl_length; auto;
        intros k Hk; now apply H.
    + intros k. apply H.
Qed.

(** C4, as the code has it.  In exact mode [validateObject] accepts a
    value exactly when the value is a plain object, has as many own keys
    as the definition, each of them a key of the definition, and every
    own value validates against the definition declared for its key; keys
    being unique, the two key sets are then equal.  [Schema] validates in
    exact mode, and [S = Schema({a: Number, b: String})] accepts
    [{a:1,b:"x"}] and rejects [{a:1}] and [{a:1,b:"x",c:0}]. *)
Theorem C4_exact_mode (obj : Value) (d : SchemaDefinition)
        (Hobj : NoDup (ownKeys obj)) (Hdef : NoDup (defKeys d)) :
  (validateObject obj d false = true <->
   isPlainObject obj = true /\
   List.length (ownKeys obj) = List.length (defKeys d) /\
   (forall k, In k (ownKeys obj) -> In k (defKeys d)) /\
   (forall k, In k (ownKeys obj) -> validateValue (getOwn obj k) (getDef d k) = true)) /\
  (validateObject obj d false = true <->
   isPlainObject obj = true /\
   (forall k, In k (ownKeys obj) <-> In k (defKeys d)) /\
   (forall k, In k (ownKeys obj) -> validateValue (getOwn obj k) (getDef d k) = true)) /\
  validate (Schema d) obj = validateObject obj d false /\
  (forall r f, validate SchemaA
     (VObject r f [(KString "a", VNumber 1); (KString "b", VString "x")]) = true) /\
  (forall r f, validate SchemaA (VObject r f [(KString "a", VNumber 1)]) = false) /\
  (forall r f, validate SchemaA
     (VObject r f [(KString "a", VNumber 1); (KString "b", VString "x");
                   (KString "c", VNumber 0)]) = false).
Proof.
  assert (H1 : validateObject obj d false = true <->
               isPlainObject obj = true /\
               List.length (ownKeys obj) = List.length (defKeys d) /\
               (forall k, In k (ownKeys obj) -> In k (defKeys d)) /\
               (forall k, In k (ownKeys obj) ->
                          validateValue (getOwn obj k) (getDef d k) = true)).
  { unfold validateObject. rewrite validateObjectGen_true. split.
    - intros [Hp [[Hf|Hl] [Hk Hv]]]; [discriminate|].
      repeat apply conj; auto.
      intros k Hin. destruct (Hv k Hin) as [[Hf _]|E]; [discriminate | exact E].
    - intros [Hp [Hl [Hk Hv]]]. repeat apply conj; auto. }
  split; [exact H1|]. split.
  { split.
    - intros H. apply H1 in H. destruct H as [Hp [Hl [Hk Hv]]].
      repeat apply conj; auto; apply same_keys; auto.
    - intros [Hp [Hk Hv]]. apply H1.
      assert (Hs : List.length (ownKeys obj) = List.length (defKeys d) /\
                   (forall k, In k (ownKeys obj) -> In k (defKeys d)))
        by (apply same_keys; auto).
      destruct Hs as [Hl Hi]. auto. }
  repeat apply conj; try (intros r f; vm_compute; reflexivity).
  reflexivity.
Qed.

Lemma C4_witness :
  validateObject
    (VObject 1 false [(KString "a", VNumber 1); (KString "b", VString "x")])
    (mkSchema [(KString "a", DGuard Number); (KString "b", DGuard String_)] [])
    false = true <->
  isPlainObject (VObject 1 false [(KString "a", VNumber 1); (KString "b", VString "x")])
  = true /\
  (forall k, In k [KString "a"; KString "b"] <-> In k [KString "a"; KString "b"]) /\
  (forall k, In k [KString "a"; KString "b"] ->
     validateValue
       (getOwn (VObject 1 false [(KString "a", VNumber 1); (KString "b", VString "x")]) k)
       (getDef (mkSchema [(KString "a", DGuard Number); (KString "b", DGuard String_)] []) k)
     = true).
Proof.
  assert (N : NoDup [KString "a"; KString "b"]).
  { constructor; [intros [E|[]]; discriminate|].
    constructor; [intros []|constructor]. }
  exact (proj1 (proj2 (C4_exact_mode
    (VObject 1 false [(KString "a", VNumber 1); (KString "b", VString "x")])
    (mkSchema [(KString "a", DGuard Number); (KString "b", DGuard String_)] [])
    N N))).
Defined.

(** C4, as the specification states it, fails on a value that is not a
    plain object: the empty array has the own key [length] only, which is
    the key set of [{length: Number}], and its value [0] validates, yet
    [validateObject] rejects it. *)
Lemma C4_counterexample :
  ~ (validateObject (VArray 1 false []) (mkSchema [(KString "length", DGuard Number)] [])
                    false = true <->
     (forall k, In k (ownKeys (VArray 1 false [])) <->
                In k (defKeys (mkSchema [(KString "length", DGuard Number)] []))) /\
     (forall k, In k (ownKeys (VArray 1 false [])) ->
                validateValue (getOwn (VArray 1 false []) k)
                              (getDef (mkSchema [(KString "length", DGuard Number)] []) k)
                = true)).
Proof.
  intros [_ H]. assert (E : validateObject (VArray 1 false [])
                              (mkSchema [(KString "length", DGuard Number)] []) false = true).
  { apply H. split.
    - intros k. reflexivity.
    - intros k [<-|[]]. reflexivity. }
  discriminate E.
Qed.

(** C5. In partial mode, for a schema [S] with definition [d] and a plain
    object: declared keys may be missing; an own key whose value is
    [undefined] passes the value check whatever its declared type; an own
    key outside the definition's keys rejects the object.  With
    [S = Schema({a: Number, b: String})], [Partial(S)] accepts [{a:1}] and
    [{a:1,b:undefined}], though [String] rejects [undefined], and rejects
    [{a:1,c:0}]. *)
Theorem C5_partial_mode (schema : TypeDefinition) (d : SchemaDefinition) (obj : Value)
        (Hschema : schemaOf schema = Some d)
        (Hplain : isPlainObject obj = true) :
  exists g,
    Partial schema = Some g /\
    (validate g obj = true <->
     forall k, In k (ownKeys obj) ->
               In k (defKeys d) /\
               (getOwn obj k = VUndefined \/
                validateValue (getOwn obj k) (getDef d k) = true)) /\
    (forall k, In k (ownKeys obj) -> ~ In k (defKeys d) -> validate g obj = false) /\
    (ownKeys obj = [] -> validate g obj = true) /\
    (forall r f, option_map (fun p => validate p (VObject r f [(KString "a", VNumber 1)]))
                            (Partial (DGuard SchemaA)) = Some true) /\
    (forall r f, option_map
                   (fun p => validate p (VObject r f [(KString "a", VNumber 1);
                                                      (KString "b", VUndefined)]))
                   (Partial (DGuard SchemaA)) = Some true) /\
    validate String_ VUndefined = false /\
    (forall r f, option_map
                   (fun p => validate p (VObject r f [(KString "a", VNumber 1);
                                                      (KString "c", VNumber 0)]))
                   (Partial (DGuard SchemaA)) = Some false).
Proof.
  exists (PartialOf d).
  assert (H1 : validate (PartialOf d) obj = true <->
               forall k, In k (ownKeys obj) ->
                         In k (defKeys d) /\
                         (getOwn obj k = VUndefined \/
                          validateValue (getOwn obj k) (getDef d k) = true)).
  { simpl. unfold validateObject. rewrite validateObjectGen_true. split.
    - intros [_ [_ [Hk Hv]]] k Hin. split; [now apply Hk|].
      destruct (Hv k Hin) as [[_ E]|E]; auto.
    - intros H. repeat apply conj; auto.
      + intros k Hin. now apply H.
      + intros k Hin. destruct (H k Hin) as [_ [E|E]]; auto. }
  split; [unfold Partial; now rewrite Hschema|].
  split; [exact H1|].
  split.
  { intros k Hin Hout. apply not_true_is_false. intros E.
    apply Hout. exact (proj1 (proj1 H1 E k Hin)). }
  split.
  { intros He. apply H1. rewrite He. intros k []. }
  repeat apply conj; try (intros r f; vm_compute; reflexivity).
  reflexivity.
Qed.

Lemma C5_witness :
  exists g,
    Partial (DGuard SchemaA) = Some g /\
    validate g (VObject 1 false [(KString "a", VNumber 1); (KString "b", VUndefined)])
    = true.
Proof.
  destruct (C5_partial_mode (DGuard SchemaA)
              (mkSchema [(KString "a", DGuard Number); (KString "b", DGuard String_)] [])
              (VObject 1 false [(KString "a", VNumber 1); (KString "b", VUndefined)])
              eq_refl eq_refl) as [g [Hg [Hiff _]]].
  exists g. split; [exact Hg|].
  apply Hiff. intros k [<-|[<-|[]]].
  - split; [now left | right; reflexivity].
  - split; [right; now left | left; reflexivity].
Defined.

(** ** Pick and Omit *)

Lemma filter_pointwise_in {A : Type} (f g : A -> bool) (l : list A) :
  (forall a, In a l -> f a = g a) -> filter f l = filter g l.
Proof.
  induction l as [|a l IH]; intros H; simpl; [reflexivity|].
  rewrite (H a (or_introl eq_refl)), IH; [reflexivity|].
  intros x Hx. apply H. now right.
Qed.




(** ** Record *)

Lemma forallb_false {A : Type} (f : A -> bool) (l : list A) :
  forallb f l = false <-> exists a, In a l /\ f a = false.
Proof.
  induction l as [|a l IH]; simpl.
  - split; [discriminate | intros [a [[] _]]].
  - rewrite andb_false_iff, IH. split.
    + intros [E|[x [I E]]]; [exists a; auto | exists x; auto].
    + intros [x [[<-|I] E]]; [now left | right; exists x; auto].
Qed.

(** What [Record] rejects: a candidate that is not a plain object, or that
    has an own key outside the keys allowed, or an own value that fails
    the check [Record] makes of it. *)
Lemma Record_rejects (keys : RecordKeys) (value : TypeDefinition) (obj : Value) :
  validate (Record_ keys value) obj = false <->
  isPlainObject obj = false \/
  (exists k, In k (ownKeys obj) /\ recordKeyOk keys k = false) \/
  (exists k, In k (ownKeys obj) /\ recordValueOk value (getOwn obj k) = false).
Proof.
  split.
  - simpl. destruct (isPlainObject obj); simpl.
    + intros H. right. apply forallb_false in H. destruct H as [k [Hin Hk]].
      apply andb_false_iff in Hk. destruct Hk; [left | right]; exists k; auto.
    + intros _. now left.
  - simpl. intros [Hp|[[k [Hin Hk]]|[k [Hin Hk]]]].
    + now rewrite Hp.
    + destruct (isPlainObject obj); [simpl | reflexivity].
      apply forallb_false. exists k. split; [exact Hin|]. now rewrite Hk.
    + destruct (isPlainObject obj); [simpl | reflexivity].
      apply forallb_false. exists k. split; [exact Hin|].
      rewrite Hk. apply andb_false_r.
Qed.

(** C3, at the input where the code departs from it.
    [Record(['a'], [1, 2])] rejects [{ a: [1, 2] }]: the candidate is a
    plain object, its key is allowed and [validateValue] accepts its
    value against the definition, but [Record] compares a definition that
    is not a guard with [!==] and the two arrays are different objects.
    The same definition accepts the same array through [Const],
    [Optional], [Array], [Union] and [Schema], which go through
    [validateValue]; [Record] accepts only the object holding the very
    array of the definition. *)
Theorem C3_record_bypasses_validateValue :
  validate RecordOfPair pairHolder = false /\
  isPlainObject pairHolder = true /\
  (forall k, In k (ownKeys pairHolder) ->
             recordKeyOk (KeysArray [AString "a"]) k = true) /\
  (forall k, In k (ownKeys pairHolder) ->
             validateValue (getOwn pairHolder k)
                           (DLit (VArray 1 false [VNumber 1; VNumber 2])) = true) /\
  validate (Const (VArray 1 false [VNumber 1; VNumber 2]))
           (VArray 2 false [VNumber 1; VNumber 2]) = true /\
  validate (Optional (DLit (VArray 1 false [VNumber 1; VNumber 2])))
           (VArray 2 false [VNumber 1; VNumber 2]) = true /\
  validate (Array (DLit (VArray 1 false [VNumber 1; VNumber 2])))
           (VArray 4 false [VArray 2 false [VNumber 1; VNumber 2]]) = true /\
  validate (Union [DLit (VArray 1 false [VNumber 1; VNumber 2])])
           (VArray 2 false [VNumber 1; VNumber 2]) = true /\
  validate (Schema (mkSchema [(KString "a", DLit (VArray 1 false [VNumber 1; VNumber 2]))] []))
           pairHolder = true /\
  validate RecordOfPair
           (VObject 3 false [(KString "a", VArray 1 false [VNumber 1; VNumber 2])]) = true.
Proof.
  repeat apply conj; try reflexivity; intros k [<-|[]]; reflexivity.
Qed.

(** Where the definition is a type guard or a literal that is neither an
    array nor a plain object, the check of [Record] is [validateValue]. *)
Lemma recordValueOk_validateValue (value : TypeDefinition) (v : Value) :
  match value with
  | DGuard _ => True
  | DShape _ => False
  | DLit lit => isArray lit = false /\ isPlainObject lit = false
  end ->
  recordValueOk value v = validateValue v value.
Proof.
  destruct value as [g|d|lit]; simpl; [reflexivity | intros [] |].
  intros [Ha Hp].
  destruct lit; simpl in *; try discriminate; try reflexivity.
  - destruct v; reflexivity.
  - destruct v; simpl; try reflexivity; try apply Nat.eqb_sym.
Qed.

(** ** The transformer *)

Lemma transformObject_passthrough (obj : Value) (d : SchemaDefinition) (s : Ref) :
  JSType_eqb (typeof obj) TObject = false \/ obj = VNull ->
  transformObject obj d s = Normal obj s.
Proof.
  unfold transformObject. intros [H| ->]; [rewrite H|]; reflexivity.
Qed.

Lemma transformEntry_frozen (obj : Value) (d : SchemaDefinition) (key : Key) (s : Ref) :
  isFrozen obj = true -> exists e, transformEntry obj d key s = Throw e.
Proof.
  intros Hf. unfold transformEntry, bind, assignOver. rewrite Hf.
  destruct (match getDef d key with
            | DGuard g => transform g (getOwn obj key)
            | _ => ret (getOwn obj key)
            end s) as [v s'|e]; eexists; reflexivity.
Qed.

(** A frozen object with an own property makes [transformObject] throw. *)
Lemma transformObject_frozen (obj : Value) (d : SchemaDefinition) (s : Ref) :
  JSType_eqb (typeof obj) TObject = true -> isFrozen obj = true ->
  ownKeys obj <> [] ->
  exists e, transformObject obj d s = Throw e.
Proof.
  intros Ht Hf Hk. unfold transformObject. rewrite Ht. simpl.
  destruct obj; try discriminate; simpl in *;
    (destruct (ownKeys _) as [|k ks] eqn:Ek; [congruence|]);
    unfold bind at 1; simpl; unfold bind at 1; simpl; unfold bind at 1;
    match goal with
    | |- context [transformEntry ?o d k (S s)] =>
        destruct (transformEntry_frozen o d k (S s) Hf) as [e He]; rewrite He
    end; eexists; reflexivity.
Qed.

Lemma mapM_entries (obj : Value) (d : SchemaDefinition) (keys : list Key) :
  isFrozen obj = false ->
  (forall k g s1, In k keys -> getDef d k = DGuard g ->
                  exists v s2, transform g (getOwn obj k) s1 = Normal v s2) ->
  forall s, exists entries s',
    mapM (transformEntry obj d) keys s = Normal entries s' /\
    map fst entries = keys /\
    Forall (fun kv =>
              match getDef d (fst kv) with
              | DGuard g => exists s1 s2,
                  transform g (getOwn obj (fst kv)) s1 = Normal (snd kv) s2
              | _ => snd kv = getOwn obj (fst kv)
              end) entries.
Proof.
  intros Hf. induction keys as [|k keys IH]; intros Ht s; simpl.
  - exists [], s. repeat split. constructor.
  - assert (Hk : exists v s1, transformEntry obj d k s = Normal (k, v) s1 /\
                 match getDef d k with
                 | DGuard g => exists s1 s2, transform g (getOwn obj k) s1 = Normal v s2
                 | _ => v = getOwn obj k
                 end).
    { unfold transformEntry, bind, assignOver. rewrite Hf.
      destruct (getDef d k) as [g|sd|lit] eqn:Eg.
      - destruct (Ht k g s (or_introl eq_refl) Eg) as [v [s2 Ev]].
        rewrite Ev. exists v, s2. split; [reflexivity|]. now exists s, s2.
      - exists (getOwn obj k), s. split; reflexivity.
      - exists (getOwn obj k), s. split; reflexivity. }
    destruct Hk as [v [s1 [Ev Hv]]].
    destruct (IH (fun k' g s' Hin => Ht k' g s' (or_intror Hin)) s1)
      as [entries [s' [Em [Hkeys Hall]]]].
    exists ((k, v) :: entries), s'. unfold bind. rewrite Ev, Em.
    repeat split; simpl; [now rewrite Hkeys|].
    constructor; [exact Hv | exact Hall].
Qed.

(** For an object whose properties are writable, and a definition whose
    guards transform the properties normally, [transformObject] returns a
    new object with the own keys of [obj], each mapped through the
    transform of the guard [definition[key]] or kept. *)
Lemma transformObject_writable (obj : Value) (d : SchemaDefinition) (s : Ref) :
  JSType_eqb (typeof obj) TObject = true -> obj <> VNull -> isFrozen obj = false ->
  (forall k g s1, In k (ownKeys obj) -> getDef d k = DGuard g ->
                  exists v s2, transform g (getOwn obj k) s1 = Normal v s2) ->
  exists entries s',
    transformObject obj d s = Normal (created obj s entries) s' /\
    refOf (created obj s entries) = Some s /\
    ownKeys (created obj s entries) = ownKeys obj /\
    Forall (fun kv =>
              match getDef d (fst kv) with
              | DGuard g => exists s1 s2,
                  transform g (getOwn obj (fst kv)) s1 = Normal (snd kv) s2
              | _ => snd kv = getOwn obj (fst kv)
              end) entries.
Proof.
  intros Ht Hn Hf Hg.
  destruct (mapM_entries obj d (ownKeys obj) Hf Hg (S s)) as [entries [s' [Em [Hk Hall]]]].
  exists entries, s'. unfold transformObject. rewrite Ht.
  assert (En : strict_eq obj VNull = false) by (destruct obj; try reflexivity; congruence).
  rewrite En. simpl. unfold bind at 1. simpl. unfold bind at 1. rewrite Em.
  repeat split.
  - destruct obj; try reflexivity. destruct inheritedTag; reflexivity.
  - unfold ownKeys at 1. rewrite <- Hk. destruct obj; try reflexivity.
    destruct inheritedTag; reflexivity.
  - exact Hall.
Qed.

(** C9, at the input where the code departs from it.  [transformObject]
    of the frozen object [Object.freeze({ a: 1 })], which the schema
    [{ a: Number }] validates, does not return a new object: assigning to
    the object made by [Object.create(obj)] a property that [obj] holds
    read-only throws a [TypeError]. *)
Theorem C9_transformObject_frozen_input :
  forall r s,
    typeof (frozenOne r) = TObject /\
    validateObject (frozenOne r) (mkSchema [(KString "a", DGuard Number)] []) false = true /\
    transformObject (frozenOne r) (mkSchema [(KString "a", DGuard Number)] []) s
    = Throw TypeError /\
    transformObject (VObject r false [(KString "a", VNumber 1)])
                    (mkSchema [(KString "a", DGuard Number)] []) s
    = Normal (VObject s false [(KString "a", VNumber 1)]) (S s).
Proof. intros r s. repeat apply conj; reflexivity. Qed.

(** C8, at the input where the code departs from it.  [validate] of
    [Schema({ a: Number })] accepts the frozen object
    [Object.freeze({ a: 1 })], and [transform] of that guard, of the
    guards [Partial], [Required], [Pick] and [Omit] derive from it and of
    a [Union] over it throws a [TypeError] on the same object. *)
Theorem C8_transform_throws_on_frozen_input :
  forall r s,
    validate SchemaNum (frozenOne r) = true /\
    transform SchemaNum (frozenOne r) s = Throw TypeError /\
    option_map (fun g => transform g (frozenOne r) s) (Partial (DGuard SchemaNum))
    = Some (Throw TypeError) /\
    option_map (fun g => transform g (frozenOne r) s) (Required (DGuard SchemaNum))
    = Some (Throw TypeError) /\
    option_map (fun g => transform g (frozenOne r) s)
               (built (Pick (DGuard SchemaNum) [AString "a"]))
    = Some (Throw TypeError) /\
    option_map (fun g => transform g (frozenOne r) s)
               (built (Omit (DGuard SchemaNum) []))
    = Some (Throw TypeError) /\
    validate (Union [DGuard SchemaNum]) (frozenOne r) = true /\
    transform (Union [DGuard SchemaNum]) (frozenOne r) s = Throw TypeError.
Proof. intros r s. repeat apply conj; reflexivity. Qed.

(** ** Transforms return on values without frozen objects

    The throw of [transformObject] on a frozen object is the only one in
    the core: on values none of whose objects is frozen, the transform of
    every guard the combinators build returns normally, provided the
    guards they are built from do. *)

Lemma writable_entries (l : list (Key * Value)) :
  (fix go (l : list (Key * Value)) : bool :=
     match l with
     | [] => true
     | (_, x) :: rest => writableb x && go rest
     end) l = true ->
  forall k v, In (k, v) l -> writableb v = true.
Proof.
  induction l as [|[k' x] l IH]; simpl; [intros _ k v []|].
  intros H k v [E|I].
  - injection E as _ <-. now apply andb_true_iff in H.
  - apply andb_true_iff in H. now apply (IH (proj2 H) k).
Qed.

Lemma indexed_in (elems : list Value) :
  forall i k v, In (k, v) (indexed i elems) -> In v elems.
Proof.
  induction elems as [|x elems IH]; simpl; intros i k v; [intros []|].
  intros [E|I]; [injection E as _ <-; now left | right; now apply (IH (S i) k)].
Qed.

Lemma writable_own (obj : Value) :
  writableb obj = true ->
  isFrozen obj = false /\
  forall k, writableb (getOwn obj k) = true.
Proof.
  intros H.
  assert (He : forall k v, In (k, v) (ownEntries obj) -> writableb v = true).
  { destruct obj; simpl in *; try (intros k v []);
      apply andb_true_iff in H; destruct H as [_ H].
    - intros k v Hin. apply in_app_or in Hin. destruct Hin as [I|[E|[]]].
      + apply indexed_in in I. rewrite forallb_forall in H. now apply H.
      + injection E as _ <-. reflexivity.
    - now apply writable_entries.
    - now apply writable_entries. }
  split.
  - destruct obj; simpl in *; try reflexivity;
      apply andb_true_iff in H; destruct H as [H _];
      now apply negb_true_iff in H.
  - intros k. unfold getOwn. destruct (lookup k (ownEntries obj)) as [v|] eqn:E.
    + apply lookup_some_in in E. now apply (He k).
    + reflexivity.
Qed.

Lemma mapM_total {A B : Type} (f : A -> M B) (l : list A) :
  (forall a s, In a l -> exists b s', f a s = Normal b s') ->
  forall s, exists bs s', mapM f l s = Normal bs s'.
Proof.
  induction l as [|a l IH]; intros H s; simpl.
  - exists [], s. reflexivity.
  - destruct (H a s (or_introl eq_refl)) as [b [s1 E1]].
    destruct (IH (fun a' s' Hin => H a' s' (or_intror Hin)) s1) as [bs [s2 E2]].
    exists (b :: bs), s2. unfold bind. now rewrite E1, E2.
Qed.

Lemma Total_default : Total defaultTransformer.
Proof. intros v s _. exists v, s. reflexivity. Qed.

Lemma Total_transformWith (type : TypeDefinition) :
  TotalDef type -> Total (transformWith type).
Proof.
  destruct type as [g|d|lit]; simpl; intros H; [exact H | |];
    intros v s _; exists v, s; reflexivity.
Qed.

Lemma Total_transformObject (d : SchemaDefinition) :
  (forall k, TotalDef (getDef d k)) -> Total (fun obj => transformObject obj d).
Proof.
  intros Hd obj s Hw.
  destruct (JSType_eqb (typeof obj) TObject) eqn:Ht.
  - assert (Hn : obj <> VNull \/ obj = VNull)
      by (destruct obj; (now right) || (left; discriminate)).
    destruct Hn as [Hn|Hn].
    + destruct (writable_own obj Hw) as [Hf Hown].
      destruct (transformObject_writable obj d s Ht Hn Hf) as [entries [s' [E _]]].
      * intros k g s1 _ Eg. specialize (Hd k). rewrite Eg in Hd.
        apply Hd. apply Hown.
      * eexists. eexists. exact E.
    + exists obj, s. apply transformObject_passthrough. now right.
  - exists obj, s. apply transformObject_passthrough. now left.
Qed.

Lemma lookup_filter_key {A : Type} (keep : Key -> bool) (k : Key) (l : list (Key * A)) :
  lookup k (filter (fun kd => keep (fst kd)) l) =
  if keep k then lookup k l else None.
Proof.
  induction l as [|[k' a] l IH]; simpl.
  - now destruct (keep k).
  - destruct (keep k') eqn:Ek'; simpl.
    + destruct (Key_eqb_spec k k') as [->|Hne].
      * now rewrite Ek'.
      * exact IH.
    + destruct (Key_eqb_spec k k') as [->|Hne].
      * rewrite IH, Ek'. reflexivity.
      * exact IH.
Qed.

(** Through its prototype the narrowed definition of [Pick] and [Omit]
    still answers every key as the definition it was made from. *)
Lemma getDef_narrowed (d : SchemaDefinition) (keep : Key -> bool) (k : Key) :
  getDef (narrowed d keep) k = getDef d k.
Proof.
  unfold getDef, narrowed, createFrom. simpl.
  rewrite !lookup_app, lookup_filter_key.
  destruct (keep k); [|reflexivity].
  destruct (lookup k (own d)); reflexivity.
Qed.

(** X24. On a value none of whose objects is frozen, the transform of
    every guard the combinators build returns normally when the transforms
    of the guards it is built from do: the leaves, [Array], [StringArray],
    [Optional], [Nullable], [NonNullable], [Const], [Record], [Schema],
    [Partial], [Required], [Pick], [Omit] and [Union]. *)
Theorem core_transforms_total :
  (forall t, In t [Boolean; Number; BigInt; String_; Symbol; Undefined; Null;
                   Object; Function; Never; Unknown; Any] -> Total (transform t)) /\
  (forall type, TotalDef type -> Total (transform (Array type))) /\
  (forall type delimiter, TotalDef type -> Total (transform (StringArray type delimiter))) /\
  (forall type, TotalDef type -> Total (transform (Optional type))) /\
  (forall type, TotalDef type -> Total (transform (Nullable type))) /\
  (forall type, TotalDef type -> Total (transform (NonNullable type))) /\
  (forall lit, Total (transform (Const lit))) /\
  (forall keys value, Total (transform (Record_ keys value))) /\
  (forall d, (forall k, TotalDef (getDef d k)) -> Total (transform (Schema d))) /\
  (forall d, (forall k, TotalDef (getDef d k)) -> Total (transform (PartialOf d))) /\
  (forall d, (forall k, TotalDef (getDef d k)) -> Total (transform (RequiredOf d))) /\
  (forall d keys, (forall k, TotalDef (getDef d k)) -> Total (transform (PickOf d keys))) /\
  (forall d keys, (forall k, TotalDef (getDef d k)) -> Total (transform (OmitOf d keys))) /\
  (forall types, (forall t, In t types -> TotalDef t) -> Total (transform (Union types))).
Proof.
  repeat apply conj.
  - intros t Hin v s _. simpl in Hin.
    repeat (destruct Hin as [<-|Hin]; [eexists; eexists; reflexivity|]).
    destruct Hin.
  - intros [g|d|lit] Hg v s Hw; simpl;
      try (destruct v; eexists; eexists; reflexivity).
    destruct v; try (eexists; eexists; reflexivity).
    simpl in Hw. apply andb_true_iff in Hw. destruct Hw as [_ Hw].
    rewrite forallb_forall in Hw.
    destruct (mapM_total (fun v => transform g v) elems) with (s := S s) as [bs [s' E]].
    { intros a s0 Hin. apply Hg. now apply Hw. }
    unfold bind at 1. simpl. unfold bind at 1. rewrite E.
    eexists. eexists. reflexivity.
  - intros [g|d|lit] delimiter Hg v s Hw; simpl;
      try (destruct v; eexists; eexists; reflexivity).
    destruct v; try (eexists; eexists; reflexivity).
    destruct (mapM_total (fun v => transform g v) (map VString (split s0 delimiter)))
      with (s := S (S s)) as [bs [s' E]].
    { intros a s1 Hin. apply Hg. apply in_map_iff in Hin.
      destruct Hin as [x [<- _]]. reflexivity. }
    unfold bind at 1. simpl. unfold bind at 1. simpl. unfold bind at 1. rewrite E.
    eexists. eexists. reflexivity.
  - intros type H. now apply Total_transformWith.
  - intros type H. now apply Total_transformWith.
  - intros type H. now apply Total_transformWith.
  - intros lit. apply Total_default.
  - intros keys value. apply Total_default.
  - intros d H. now apply Total_transformObject.
  - intros d H. now apply Total_transformObject.
  - intros d H. now apply Total_transformObject.
  - intros d keys H. apply Total_transformObject. intros k.
    rewrite getDef_narrowed. apply H.
  - intros d keys H. apply Total_transformObject. intros k.
    rewrite getDef_narrowed. apply H.
  - intros types H v s Hw. rewrite Union_equation. simpl.
    destruct (find (fun type => validateValue v type) types) as [[g|d|lit]|] eqn:E;
      try (exists v, s; reflexivity).
    apply find_some in E. destruct E as [Hin _].
    specialize (H _ Hin). simpl in H. now apply H.
Qed.

(** * Further properties of the engine *)

(** ** Literal definitions *)

Lemma Value_ind_nested (P : Value -> Prop) :
  P VUndefined -> P VNull -> (forall b, P (VBoolean b)) -> (forall n, P (VNumber n)) ->
  P VNaN -> (forall n, P (VBigInt n)) -> (forall s, P (VString s)) ->
  (forall id, P (VSymbol id)) -> (forall r, P (VFunction r)) ->
  (forall r f elems, Forall P elems -> P (VArray r f elems)) ->
  (forall r f entries, Forall (fun kv => P (snd kv)) entries -> P (VObject r f entries)) ->
  (forall r f cls t entries, Forall (fun kv => P (snd kv)) entries ->
                             P (VInstance r f cls t entries)) ->
  forall v, P v.
Proof.
  intros H1 H2 H3 H4 H5 H6 H7 H8 H9 Harr Hobj Hinst.
  fix IH 1. intros v. destruct v.
  - exact H1.
  - exact H2.
  - apply H3.
  - apply H4.
  - exact H5.
  - apply H6.
  - apply H7.
  - apply H8.
  - apply H9.
  - apply Harr. induction elems as [|x elems IHl]; constructor; [apply IH | exact IHl].
  - apply Hobj. induction own0 as [|[k x] l IHl]; constructor; [apply IH | exact IHl].
  - apply Hinst. induction own0 as [|[k x] l IHl]; constructor; [apply IH | exact IHl].
Qed.

Lemma JSType_eqb_sym (a b : JSType) : JSType_eqb a b = JSType_eqb b a.
Proof. destruct a, b; reflexivity. Qed.

Lemma strict_eq_sym (a b : Value) : strict_eq a b = strict_eq b a.
Proof.
  destruct a, b; simpl; try reflexivity;
    try (destruct b, b0; reflexivity);
    try apply Z.eqb_sym; try apply String.eqb_sym; try apply Nat.eqb_sym;
    rewrite ?(Nat.eqb_sym r r0); reflexivity.
Qed.

Lemma strict_eq_primitive (a b : Value) :
  isPrimitive a = true ->
  (strict_eq a b = true <-> b = a /\ a <> VNaN).
Proof.
  intros Hp. destruct a; try discriminate Hp; destruct b; simpl;
    try (split; [discriminate | intros [E _]; discriminate E]);
    try (split; [intros _; split; [reflexivity | discriminate] | reflexivity]).
  - rewrite Bool.eqb_true_iff. split; [intros ->; split; [reflexivity|discriminate]
                                      | intros [[= ->] _]; reflexivity].
  - rewrite Z.eqb_eq. split; [intros ->; split; [reflexivity|discriminate]
                             | intros [[= ->] _]; reflexivity].
  - split; [discriminate | intros [_ H]; now elim H].
  - rewrite Z.eqb_eq. split; [intros ->; split; [reflexivity|discriminate]
                             | intros [[= ->] _]; reflexivity].
  - rewrite String.eqb_eq. split; [intros ->; split; [reflexivity|discriminate]
                                  | intros [[= ->] _]; reflexivity].
  - rewrite Nat.eqb_eq. split; [intros ->; split; [reflexivity|discriminate]
                               | intros [[= ->] _]; reflexivity].
Qed.

Lemma validateLiteral_primitive (lit v : Value) :
  isPrimitive lit = true -> validateLiteral v lit = strict_eq lit v.
Proof.
  intros Hp. destruct lit; try discriminate Hp; try reflexivity.
  simpl. destruct v; reflexivity.
Qed.

(** X1. A primitive used as a definition matches the identical primitive
    and nothing else, and [NaN] matches nothing: [Const(NaN)] rejects
    every value, [NaN] included. *)
Theorem Const_primitive (lit v : Value) (Hprim : isPrimitive lit = true) :
  (validate (Const lit) v = true <-> v = lit /\ lit <> VNaN) /\
  (lit = VNaN -> validate (Const lit) v = false).
Proof.
  assert (H : validate (Const lit) v = true <-> v = lit /\ lit <> VNaN).
  { simpl. rewrite (validateLiteral_primitive lit v Hprim).
    now apply strict_eq_primitive. }
  split; [exact H|].
  intros E. apply not_true_is_false. intros Ht. apply H in Ht. now destruct Ht.
Qed.

Lemma Const_primitive_witness :
  (validate (Const (VNumber 3)) (VNumber 3) = true <->
   VNumber 3 = VNumber 3 /\ VNumber 3 <> VNaN) /\
  (VNumber 3 = VNaN -> validate (Const (VNumber 3)) (VNumber 3) = false).
Proof. exact (Const_primitive (VNumber 3) (VNumber 3) eq_refl). Defined.

Lemma identicalElems_Forall2 (a b : list Value) :
  identicalElems a b = true <-> Forall2 (fun x y => strict_eq x y = true) a b.
Proof.
  revert b. induction a as [|x a IH]; intros [|y b]; simpl.
  - split; [constructor | reflexivity].
  - split; [discriminate | intros H; inversion H].
  - split; [discriminate | intros H; inversion H].
  - rewrite andb_true_iff, IH. split.
    + intros [E H]. now constructor.
    + intros H. inversion H; subst. auto.
Qed.

(** X2. An array used as a definition matches the arrays of the same
    length whose elements are strictly equal to its own, index by index:
    the identity of the array does not count, the identity of an element
    that is an object does, and other values never match. *)
Theorem array_literal_matches (r : Ref) (f : bool) (elems : list Value) (v : Value) :
  validateValue v (DLit (VArray r f elems)) = true <->
  exists r' f' elems',
    v = VArray r' f' elems' /\
    Forall2 (fun x y => strict_eq x y = true) elems' elems.
Proof.
  simpl. destruct v; simpl;
    try (split; [discriminate | intros [r' [f' [e' [E _]]]]; discriminate E]).
  rewrite andb_true_iff, identicalElems_Forall2. split.
  - intros [_ H]. now exists r0, frozen, elems0.
  - intros [r' [f' [e' [[= -> -> ->] H]]]]. split; [|exact H].
    apply Nat.eqb_eq. now apply (Forall2_length H).
Qed.

Lemma strict_eq_NaN_r (x : Value) : strict_eq x VNaN = false.
Proof. destruct x; reflexivity. Qed.

Lemma identical_no_NaN (a b : list Value) :
  Forall2 (fun x y => strict_eq x y = true) a b -> ~ In VNaN b.
Proof.
  induction 1 as [|x y a b E _ IH]; [intros []|].
  intros [->|I]; [rewrite strict_eq_NaN_r in E; discriminate | exact (IH I)].
Qed.

(** X3. An array literal holding [NaN] matches no value, not even the
    array itself. *)
Theorem array_literal_with_NaN (r : Ref) (f : bool) (elems : list Value) (v : Value)
        (Hnan : In VNaN elems) :
  validateValue v (DLit (VArray r f elems)) = false.
Proof.
  apply not_true_is_false. simpl. destruct v; simpl; try discriminate.
  rewrite andb_true_iff, identicalElems_Forall2. intros [_ H].
  exact (identical_no_NaN _ _ H Hnan).
Qed.

Lemma array_literal_with_NaN_witness :
  In VNaN [VNumber 1; VNaN] /\
  validateValue (VArray 7 false [VNumber 1; VNaN])
                (DLit (VArray 7 false [VNumber 1; VNaN])) = false.
Proof.
  assert (H : In VNaN [VNumber 1; VNaN]) by (right; now left).
  split; [exact H|].
  exact (array_literal_with_NaN 7 false [VNumber 1; VNaN]
                                (VArray 7 false [VNumber 1; VNaN]) H).
Defined.

Lemma sameData_primitive (x y : Value) :
  isPrimitive y = true -> sameData x y = true -> strict_eq x y = true.
Proof.
  intros Hp H. destruct y; try discriminate Hp; destruct x; simpl in *;
    try discriminate; exact H.
Qed.

Lemma sameData_elems (xs ys : list Value) :
  (fix go (xs ys : list Value) : bool :=
     match xs, ys with
     | [], [] => true
     | x :: xs', y :: ys' => sameData x y && go xs' ys'
     | _, _ => false
     end) xs ys = true ->
  forallb (fun x => isPrimitive x && negb (isNaN x)) ys = true ->
  Forall2 (fun x y => strict_eq x y = true) xs ys.
Proof.
  revert ys. induction xs as [|x xs IH]; intros [|y ys] H Hp; try discriminate.
  - constructor.
  - simpl in Hp. apply andb_true_iff in H. apply andb_true_iff in Hp.
    destruct H as [E H], Hp as [Py Hp]. apply andb_true_iff in Py.
    constructor; [apply sameData_primitive; tauto | now apply IH].
Qed.

Lemma sameData_entries (es fs : list (Key * Value)) :
  (fix go (es fs : list (Key * Value)) : bool :=
     match es, fs with
     | [], [] => true
     | (k, x) :: es', (k', y) :: fs' => Key_eqb k k' && sameData x y && go es' fs'
     | _, _ => false
     end) es fs = true ->
  map fst es = map fst fs /\
  forall k, match lookup k es, lookup k fs with
            | Some x, Some y => sameData x y = true /\ In (k, y) fs
            | None, None => True
            | _, _ => False
            end.
Proof.
  revert fs. induction es as [|[k x] es IH]; intros [|[k' y] fs] H; try discriminate.
  - split; [reflexivity | intros k; exact I].
  - apply andb_true_iff in H. destruct H as [H Hr].
    apply andb_true_iff in H. destruct H as [Ek Ex].
    apply Key_eqb_eq in Ek. subst k'.
    destruct (IH fs Hr) as [Hk Hl]. split; [simpl; now rewrite Hk|].
    intros k0. simpl. destruct (Key_eqb_spec k0 k) as [->|Hne].
    + split; [exact Ex | now left].
    + specialize (Hl k0).
      destruct (lookup k0 es), (lookup k0 fs); try exact Hl.
      destruct Hl as [Hs Hi]. split; [exact Hs | now right].
Qed.

Lemma literalData_entries (l : list (Key * Value)) :
  (fix go (l : list (Key * Value)) : bool :=
     match l with
     | [] => true
     | (_, x) :: rest => literalData x && go rest
     end) l = true ->
  forall k y, In (k, y) l -> literalData y = true.
Proof.
  induction l as [|[k' x] l IH]; simpl; [intros _ k y []|].
  intros H k y [E|I]; apply andb_true_iff in H.
  - injection E as _ <-. tauto.
  - now apply (IH (proj2 H) k).
Qed.

Lemma deep_copy_validates (lit : Value) :
  forall v, literalData lit = true -> sameData v lit = true ->
            validateLiteral v lit = true.
Proof.
  induction lit using Value_ind_nested; intros v Hl Hs;
    try discriminate Hl;
    try (rewrite validateLiteral_primitive by reflexivity;
         rewrite strict_eq_sym; now apply sameData_primitive).
  - (* array *)
    destruct v; simpl in Hs; try discriminate Hs. simpl in Hl. simpl.
    pose proof (sameData_elems _ _ Hs Hl) as HF.
    apply andb_true_iff. split.
    + apply Nat.eqb_eq. now apply (Forall2_length HF).
    + now apply identicalElems_Forall2.
  - (* plain object *)
    destruct v; simpl in Hs; try discriminate Hs. simpl in Hl.
    destruct (sameData_entries _ _ Hs) as [Hk Hv].
    cbn [validateLiteral typeof JSType_eqb negb isPlainObject andb].
    apply validateObjectGen_true. repeat apply conj.
    + reflexivity.
    + right. unfold ownKeys. simpl. now rewrite Hk.
    + intros k Hin. unfold ownKeys in Hin. simpl in Hin. now rewrite <- Hk.
    + intros k Hin. right. rewrite findCheck_lookup. unfold getOwn. simpl.
      specialize (Hv k).
      destruct (lookup k own0) as [x|] eqn:Ex, (lookup k entries) as [y|] eqn:Ey;
        try contradiction.
      * destruct Hv as [Hxy Hiny].
        rewrite Forall_forall in H. apply (H (k, y) Hiny).
        -- now apply (literalData_entries entries Hl k).
        -- exact Hxy.
      * reflexivity.
Qed.

(** X4. A literal definition made of plain objects, arrays of primitives
    and primitives other than [NaN] accepts every copy of itself: a value
    with the same keys in the same order and the same data, whatever the
    identities of its objects, as the deep clone of the test suite. *)
Theorem Const_accepts_deep_copy (lit v : Value)
        (Hdata : literalData lit = true) (Hcopy : sameData v lit = true) :
  validate (Const lit) v = true.
Proof. simpl. now apply deep_copy_validates. Qed.

Lemma Const_accepts_deep_copy_witness :
  validate
    (Const (VObject 1 false [(KString "nested", VObject 2 false [(KString "value", VNumber 0)])]))
    (VObject 8 true [(KString "nested", VObject 9 false [(KString "value", VNumber 0)])])
  = true.
Proof.
  exact (Const_accepts_deep_copy
    (VObject 1 false [(KString "nested", VObject 2 false [(KString "value", VNumber 0)])])
    (VObject 8 true [(KString "nested", VObject 9 false [(KString "value", VNumber 0)])])
    eq_refl eq_refl).
Defined.

(** ** Definitions nested without a guard *)

Lemma validateObject_plain (v : Value) (d : SchemaDefinition) (partial : bool) :
  validateObject v d partial = isPlainObject v && validateObject v d partial.
Proof.
  unfold validateObject, validateObjectGen.
  destruct (isPlainObject v); reflexivity.
Qed.

(** X5. An object literal used as a definition, with guards among its
    properties or without, validates exactly as the guard [Schema] makes
    of it does. *)
Theorem bare_definition_validates_as_Schema :
  (forall d v, validateValue v (DShape d) = validate (Schema d) v) /\
  (forall r f entries v,
      validateValue v (DLit (VObject r f entries)) =
      validate (Schema (literalSchema entries)) v).
Proof.
  split.
  - intros d v. rewrite validateValue_shape. simpl.
    symmetry. apply validateObject_plain.
  - intros r f entries v. rewrite validateValue_literal_object, validateValue_shape.
    simpl. symmetry. apply validateObject_plain.
Qed.

(** ** Optional, Nullable and NonNullable *)

Lemma typeof_undefined_eq (v : Value) :
  hasType TUndefined v = true -> v = VUndefined.
Proof. unfold hasType. destruct v; simpl; congruence. Qed.

Lemma strict_eq_null (v : Value) : strict_eq v VNull = true -> v = VNull.
Proof. destruct v; simpl; congruence. Qed.

(** X6. [Optional(T)] and [Nullable(T)] accept what [T] accepts, and
    [undefined], respectively [null], besides; [NonNullable(T)] accepts
    what [T] accepts other than [null] and [undefined].  Wrapping twice
    changes nothing, [Optional] and [Nullable] commute, and [NonNullable]
    over [Optional(T)] or [Nullable(T)] is [NonNullable(T)]. *)
Theorem nullability_laws (type : TypeDefinition) (v : Value) :
  (validate (Optional type) v = true <-> v = VUndefined \/ validateValue v type = true) /\
  (validate (Nullable type) v = true <-> v = VNull \/ validateValue v type = true) /\
  (validate (NonNullable type) v = true <->
   v <> VNull /\ v <> VUndefined /\ validateValue v type = true) /\
  validate (Optional (DGuard (Optional type))) v = validate (Optional type) v /\
  validate (Nullable (DGuard (Nullable type))) v = validate (Nullable type) v /\
  validate (Optional (DGuard (Nullable type))) v =
  validate (Nullable (DGuard (Optional type))) v /\
  validate (NonNullable (DGuard (Optional type))) v = validate (NonNullable type) v /\
  validate (NonNullable (DGuard (Nullable type))) v = validate (NonNullable type) v /\
  validate (NonNullable (DGuard (NonNullable type))) v = validate (NonNullable type) v.
Proof.
  repeat apply conj.
  - simpl. destruct (hasType TUndefined v) eqn:E.
    + intros _. left. now apply typeof_undefined_eq.
    + intros H. now right.
  - simpl. intros [->|H]; [reflexivity|].
    destruct (hasType TUndefined v); [reflexivity | exact H].
  - simpl. destruct (strict_eq v VNull) eqn:E.
    + intros _. left. now apply strict_eq_null.
    + intros H. now right.
  - simpl. intros [->|H]; [reflexivity|].
    destruct (strict_eq v VNull); [reflexivity | exact H].
  - simpl. destruct v; simpl; try discriminate; intros H;
      (repeat split; [discriminate | discriminate | exact H]).
  - simpl. intros [Hn [Hu H]]. destruct v; simpl; try exact H; congruence.
  - simpl. destruct (hasType TUndefined v); reflexivity.
  - simpl. destruct (strict_eq v VNull); reflexivity.
  - simpl. destruct v; reflexivity.
  - simpl. destruct v; reflexivity.
  - simpl. destruct v; reflexivity.
  - simpl. destruct v; reflexivity.
Qed.

(** ** Schema operators composed *)

Lemma validateObject_same (obj : Value) (d d' : SchemaDefinition) (partial : bool) :
  defKeys d = defKeys d' -> (forall k, getDef d k = getDef d' k) ->
  validateObject obj d partial = validateObject obj d' partial.
Proof.
  intros Hk Hg. unfold validateObject. rewrite Hk.
  apply validateObjectGen_ext. intros v k. now rewrite Hg.
Qed.

Lemma mapM_pointwise {A B : Type} (f g : A -> M B) (l : list A) :
  (forall a s, f a s = g a s) -> forall s, mapM f l s = mapM g l s.
Proof.
  intros H. induction l as [|a l IH]; intros s; simpl; [reflexivity|].
  unfold bind. rewrite H. destruct (g a s) as [b s'|e]; [|reflexivity].
  rewrite IH. reflexivity.
Qed.

Lemma transformObject_same (obj : Value) (d d' : SchemaDefinition) (s : Ref) :
  (forall k, getDef d k = getDef d' k) ->
  transformObject obj d s = transformObject obj d' s.
Proof.
  intros Hg. unfold transformObject.
  destruct (negb _ || _); [reflexivity|].
  unfold bind at 1. simpl. unfold bind at 1. unfold bind at 2.
  rewrite (mapM_pointwise (transformEntry obj d) (transformEntry obj d'));
    [reflexivity|].
  intros k s'. unfold transformEntry. now rewrite Hg.
Qed.

(** X7. [Required] undoes [Partial]: for a schema [S] with definition
    [d], [Required(Partial(S))] validates in exact mode against [d] and
    transforms as [Schema(d)]; and [createSchema] over a factory that
    returns [Partial(S)] gives [Schema(d)], an exact guard again. *)
Theorem Required_undoes_Partial (schema : TypeDefinition) (d : SchemaDefinition)
        (Hschema : schemaOf schema = Some d) :
  exists p r,
    Partial schema = Some p /\
    Required (DGuard p) = Some r /\
    DEF r = Some d /\
    (forall v, validate r v = validate (Schema d) v) /\
    (forall v s, transform r v s = transform (Schema d) v s) /\
    createSchema (DGuard p) = Some (Schema d) /\
    Partial (DGuard r) = Some p.
Proof.
  exists (PartialOf d), (RequiredOf d).
  unfold Partial, Required, createSchema. rewrite Hschema. simpl.
  repeat apply conj; reflexivity.
Qed.

Lemma Required_undoes_Partial_witness :
  exists p r,
    Partial (DGuard SchemaA) = Some p /\
    Required (DGuard p) = Some r /\
    forall v, validate r v = validate SchemaA v.
Proof.
  destruct (Required_undoes_Partial (DGuard SchemaA)
              (mkSchema [(KString "a", DGuard Number); (KString "b", DGuard String_)] [])
              eq_refl) as [p [r [Hp [Hr [_ [Hv _]]]]]].
  exists p, r. auto.
Defined.

(** X8. Whatever a schema accepts in exact mode its [Partial] accepts:
    [Partial] only widens. *)
Theorem exact_implies_partial (d : SchemaDefinition) (v : Value)
        (Hexact : validate (Schema d) v = true) :
  validate (PartialOf d) v = true.
Proof.
  simpl in *. unfold validateObject in *.
  apply validateObjectGen_true in Hexact. apply validateObjectGen_true.
  destruct Hexact as [Hp [_ [Hk Hv]]]. repeat apply conj; auto.
  intros k Hin. right. destruct (Hv k Hin) as [[F _]|E]; [discriminate | exact E].
Qed.

Lemma exact_implies_partial_witness :
  validate (PartialOf (mkSchema [(KString "a", DGuard Number); (KString "b", DGuard String_)] []))
           (VObject 1 false [(KString "a", VNumber 1); (KString "b", VString "x")]) = true.
Proof.
  exact (exact_implies_partial
    (mkSchema [(KString "a", DGuard Number); (KString "b", DGuard String_)] [])
    (VObject 1 false [(KString "a", VNumber 1); (KString "b", VString "x")]) eq_refl).
Defined.

(** X9. [Pick] never accepts an object holding a key outside the picked
    list, [Omit] never one holding an omitted key, and neither one
    holding a key the schema does not declare; the values of an accepted
    object validate against the schema's definitions. *)
Theorem narrowed_rejects_other_keys (d : SchemaDefinition) (keys : list KeyArg)
        (obj : Value) (k : Key) (Hin : In k (ownKeys obj)) :
  (validate (PickOf d keys) obj = true ->
   argIncludes keys k = true /\ In k (defKeys d) /\
   validateValue (getOwn obj k) (getDef d k) = true) /\
  (validate (OmitOf d keys) obj = true ->
   argIncludes keys k = false /\ In k (defKeys d) /\
   validateValue (getOwn obj k) (getDef d k) = true).
Proof.
  split; simpl; unfold validateObject; intros H;
    apply validateObjectGen_true in H; destruct H as [_ [_ [Hk Hv]]];
    specialize (Hk k Hin); specialize (Hv k Hin);
    unfold defKeys, narrowed in Hk; simpl in Hk;
    apply in_map_iff in Hk; destruct Hk as [[k' t] [Ek Hf]]; simpl in Ek; subst k';
    apply filter_In in Hf; destruct Hf as [Hi Hkeep]; simpl in Hkeep;
    (destruct Hv as [[F _]|Hv]; [discriminate|]);
    rewrite getDef_narrowed in Hv;
    (repeat apply conj; [| apply (in_map fst) in Hi; exact Hi | exact Hv]).
  - exact Hkeep.
  - now apply negb_true_iff.
Qed.

Lemma narrowed_rejects_other_keys_witness :
  validate (PickOf SchemaABC [AString "a"])
           (VObject 1 false [(KString "a", VNumber 1); (KString "b", VString "")]) = false.
Proof.
  apply not_true_is_false. intros H.
  assert (Hin : In (KString "b")
                   (ownKeys (VObject 1 false [(KString "a", VNumber 1);
                                              (KString "b", VString "")])))
    by (right; now left).
  destruct (proj1 (narrowed_rejects_other_keys SchemaABC [AString "a"] _ _ Hin) H)
    as [E _].
  discriminate E.
Defined.

Lemma filter_all {A : Type} (f : A -> bool) (l : list A) :
  (forall a, In a l -> f a = true) -> filter f l = l.
Proof.
  induction l as [|a l IH]; intros H; simpl; [reflexivity|].
  rewrite (H a (or_introl eq_refl)), IH; [reflexivity|].
  intros x Hx. apply H. now right.
Qed.

Lemma filter_none {A : Type} (f : A -> bool) (l : list A) :
  (forall a, In a l -> f a = false) -> filter f l = [].
Proof.
  induction l as [|a l IH]; intros H; simpl; [reflexivity|].
  rewrite (H a (or_introl eq_refl)), IH; [reflexivity|].
  intros x Hx. apply H. now right.
Qed.

Lemma validate_narrowed_all (d : SchemaDefinition) (keep : Key -> bool) (v : Value) :
  (forall k, In k (defKeys d) -> keep k = true) ->
  validateObject v (narrowed d keep) false = validateObject v d false.
Proof.
  intros H. apply validateObject_same.
  - unfold defKeys, narrowed. simpl. f_equal. apply filter_all.
    intros [k t] Hin. simpl. apply H. apply (in_map fst) in Hin. exact Hin.
  - intros k. apply getDef_narrowed.
Qed.

(** X10. [Pick] with every key of the schema, and [Omit] with none of
    them, accept exactly what the schema accepts in exact mode. *)
Theorem Pick_all_Omit_none (d : SchemaDefinition) (P C : list KeyArg)
        (Hall : forall k, In k (defKeys d) -> argIncludes P k = true)
        (Hnone : forall k, In k (defKeys d) -> argIncludes C k = false) :
  forall v, validate (PickOf d P) v = validate (Schema d) v /\
            validate (OmitOf d C) v = validate (Schema d) v.
Proof.
  intros v. simpl. split; apply validate_narrowed_all; [exact Hall|].
  intros k Hin. now rewrite (Hnone k Hin).
Qed.

Lemma Pick_all_Omit_none_witness :
  validate (PickOf SchemaABC [AString "c"; AString "a"; AString "b"])
           (VObject 1 false [(KString "a", VNumber 1)])
  = validate (Schema SchemaABC) (VObject 1 false [(KString "a", VNumber 1)]) /\
  validate (OmitOf SchemaABC []) (VObject 1 false [(KString "a", VNumber 1)])
  = validate (Schema SchemaABC) (VObject 1 false [(KString "a", VNumber 1)]).
Proof.
  apply (Pick_all_Omit_none SchemaABC [AString "c"; AString "a"; AString "b"] []).
  - intros k [<-|[<-|[<-|[]]]]; reflexivity.
  - intros k _. reflexivity.
Defined.

(** X11. The definition that [Pick] or [Omit] builds inherits from the
    schema's: [definition(key)] of the narrowed guard answers every key as
    the schema does, the keys left out included, and [transform] of the
    narrowed guard is [transform] of the schema, so that a property under
    a key left out is still transformed by the guard the schema declares
    for it. *)
Theorem narrowed_inherits (d : SchemaDefinition) (keys : list KeyArg) :
  (forall k, definition (PickOf d keys) (Some k) = getDef d k) /\
  (forall k, definition (OmitOf d keys) (Some k) = getDef d k) /\
  (forall obj s, transform (PickOf d keys) obj s = transform (Schema d) obj s) /\
  (forall obj s, transform (OmitOf d keys) obj s = transform (Schema d) obj s).
Proof.
  repeat apply conj.
  - intros k. simpl. apply getDef_narrowed.
  - intros k. simpl. apply getDef_narrowed.
  - intros obj s. simpl. apply transformObject_same. intros k. apply getDef_narrowed.
  - intros obj s. simpl. apply transformObject_same. intros k. apply getDef_narrowed.
Qed.

Lemma argIncludes_number (n : N) (safe : N.leb n maxSafeInteger = true) (k : Key) :
  argIncludes [ANumber n safe] k = false.
Proof. reflexivity. Qed.

(** X12. A number in a key list is not the string [Reflect.ownKeys]
    reports.  [Record] turns the numbers of its key list into strings, so
    for a safe integer [n] the guard [Record([n], value)] allows exactly
    the key that is the decimal numeral of [n]; [Pick] and [Omit] compare
    as they are, so [Pick(S, [n])] picks nothing and accepts only objects
    without own keys, and [Omit(S, [n])] omits nothing.  The key list
    [['a', 1, symbol]] of the test suite allows the keys ['a'], ['1'] and
    the symbol. *)
Theorem number_keys (n : N) (safe : N.leb n maxSafeInteger = true) :
  (forall k, recordKeyOk (KeysArray [ANumber n safe]) k = true <->
             k = KString (NilEmpty.string_of_uint (N.to_uint n))) /\
  (forall value r f x,
      validate (Record_ (KeysArray [ANumber n safe]) value)
               (VObject r f [(KString (NilEmpty.string_of_uint (N.to_uint n)), x)])
      = recordValueOk value x) /\
  (forall d v, validate (PickOf d [ANumber n safe]) v = true <->
               isPlainObject v = true /\ ownKeys v = []) /\
  (forall d v, validate (OmitOf d [ANumber n safe]) v = validate (Schema d) v) /\
  (forall r f,
      validate (Record_ (KeysArray [AString "a"; ANumber 1 eq_refl; ASymbol 0])
                        (DLit (VNumber 0)))
               (VObject r f [(KString "1", VNumber 0); (KString "a", VNumber 0);
                             (KSymbol 0, VNumber 0)]) = true).
Proof.
  repeat apply conj.
  - intros k. simpl. rewrite orb_false_r. apply Key_eqb_eq.
  - intros value r f x. simpl. rewrite String.eqb_refl. simpl.
    unfold getOwn. simpl. rewrite String.eqb_refl.
    destruct (recordValueOk value x); reflexivity.
  - intros d v. simpl. unfold validateObject. rewrite validateObjectGen_true.
    unfold defKeys, narrowed. simpl.
    rewrite (filter_none (fun kd => false) (own d)) by reflexivity. simpl. split.
    + intros [Hp [[F|Hl] _]]; [discriminate|].
      split; [exact Hp|]. now apply length_zero_iff_nil.
    + intros [Hp He]. rewrite He. repeat apply conj; auto; intros k [].
  - intros d v. simpl. apply validate_narrowed_all. reflexivity.
  - intros r f. reflexivity.
Qed.

Lemma number_keys_witness :
  validate (Record_ (KeysArray [ANumber 1 eq_refl]) (DLit (VNumber 0)))
           (VObject 1 false [(KString "1", VNumber 0)]) = true.
Proof.
  destruct (number_keys 1 eq_refl) as [_ [H _]].
  exact (H (DLit (VNumber 0)) 1 false (VNumber 0)).
Defined.

Lemma filter_filter_and {A : Type} (f g : A -> bool) (l : list A) :
  filter g (filter f l) = filter (fun a => f a && g a) l.
Proof.
  induction l as [|a l IH]; simpl; [reflexivity|].
  destruct (f a); simpl; [destruct (g a); now rewrite IH | exact IH].
Qed.

(** X13. The narrowed guards are schemas again, and narrowing composes:
    [Pick(Pick(S, P), Q)] accepts what [Pick(S, R)] accepts, for [R] the
    keys of both [P] and [Q], and [Omit(Pick(S, P), Q)] accepts what a
    [Pick] of the keys in [P] and not in [Q] accepts. *)
Theorem Pick_of_Pick (d : SchemaDefinition) (P Q R R' : list KeyArg)
        (Hboth : forall k, argIncludes R k = argIncludes P k && argIncludes Q k)
        (Hdiff : forall k, argIncludes R' k = argIncludes P k && negb (argIncludes Q k)) :
  exists g h,
    Pick (DGuard (PickOf d P)) Q = Some (Constructed g) /\
    Omit (DGuard (PickOf d P)) Q = Some (Constructed h) /\
    forall v, validate g v = validate (PickOf d R) v /\
              validate h v = validate (PickOf d R') v.
Proof.
  eexists. eexists. split; [reflexivity|]. split; [reflexivity|].
  intros v. simpl. split; apply validateObject_same.
  - unfold defKeys, narrowed. simpl. f_equal. rewrite filter_filter_and.
    apply filter_pointwise_in. intros [k t] _. simpl. now rewrite Hboth.
  - intros k. now rewrite !getDef_narrowed.
  - unfold defKeys, narrowed. simpl. f_equal. rewrite filter_filter_and.
    apply filter_pointwise_in. intros [k t] _. simpl. now rewrite Hdiff.
  - intros k. now rewrite !getDef_narrowed.
Qed.

Lemma Pick_of_Pick_witness :
  exists g h,
    Pick (DGuard (PickOf SchemaABC [AString "a"; AString "b"])) [AString "b"; AString "c"]
    = Some (Constructed g) /\
    Omit (DGuard (PickOf SchemaABC [AString "a"; AString "b"])) [AString "b"; AString "c"]
    = Some (Constructed h) /\
    forall v, validate g v = validate (PickOf SchemaABC [AString "b"]) v /\
              validate h v = validate (PickOf SchemaABC [AString "a"]) v.
Proof.
  apply (Pick_of_Pick SchemaABC [AString "a"; AString "b"] [AString "b"; AString "c"]
                      [AString "b"] [AString "a"]).
  - intros [s|i]; simpl; [|reflexivity].
    destruct (String.eqb_spec s "a") as [->|Ha]; [reflexivity|].
    destruct (String.eqb_spec s "b") as [->|Hb]; [reflexivity|].
    destruct (String.eqb_spec s "c") as [->|Hc]; reflexivity.
  - intros [s|i]; simpl; [|reflexivity].
    destruct (String.eqb_spec s "a") as [->|Ha]; [reflexivity|].
    destruct (String.eqb_spec s "b") as [->|Hb]; [reflexivity|].
    destruct (String.eqb_spec s "c") as [->|Hc]; reflexivity.
Defined.

(** ** Union beyond the merged schema *)

Lemma validate_unionGuard (types : list TypeDefinition) ud (v : Value) :
  validate (unionGuard types ud) v =
  (isPlainObject v && validate (unionSchema ud) v) ||
  existsb (fun type => validateValue v type) types.
Proof.
  destruct (isPlainObject v) eqn:Hp.
  - now rewrite validate_unionGuard_plain.
  - simpl. now rewrite Hp.
Qed.

Lemma merged_none (types : list TypeDefinition) :
  (forall t, In t types -> schemaOf t = None) -> merged types = None.
Proof. intros H. now apply (proj1 (merged_spec types)). Qed.

(** X14. [Union] accepts every value one of its candidates accepts.  For
    a value that is not a plain object, and for every value when no
    candidate is a schema, it accepts nothing else: it is the disjunction
    of the candidates, [Union()] rejects everything, and a union of such
    candidates nested in a union can be flattened. *)
Theorem Union_of_candidates (types : list TypeDefinition) (v : Value) :
  (forall t, In t types -> validateValue v t = true -> validate (Union types) v = true) /\
  (isPlainObject v = false ->
   validate (Union types) v = existsb (fun type => validateValue v type) types) /\
  ((forall t, In t types -> schemaOf t = None) ->
   validate (Union types) v = existsb (fun type => validateValue v type) types) /\
  validate (Union []) v = false /\
  ((forall t, In t types -> schemaOf t = None) ->
   forall rest,
     validate (Union (DGuard (Union types) :: rest)) v = validate (Union (types ++ rest)) v).
Proof.
  assert (Hno : forall ts, (forall t, In t ts -> schemaOf t = None) ->
                forall w, validate (Union ts) w =
                          existsb (fun type => validateValue w type) ts).
  { intros ts H w. rewrite Union_equation, validate_unionGuard, (merged_none ts H).
    simpl. now rewrite andb_false_r. }
  repeat apply conj.
  - intros t Hin Ht. rewrite Union_equation, validate_unionGuard.
    apply orb_true_iff. right. apply existsb_exists. now exists t.
  - intros Hp. rewrite Union_equation, validate_unionGuard, Hp. reflexivity.
  - intros H. now apply Hno.
  - apply (Hno []). intros t [].
  - intros H rest.
    assert (Hs : schemaOf (DGuard (Union types)) = None).
    { simpl. rewrite Union_equation. simpl. now rewrite (merged_none types H). }
    pose proof (Hno types H v) as Hv.
    remember (Union types) as U eqn:EU.
    rewrite !Union_equation, !validate_unionGuard.
    assert (Hm : merged (DGuard U :: rest) = merged (types ++ rest)).
    { unfold merged, mergeAll. simpl. unfold mergeType at 1. rewrite Hs.
      clear Hs Hv EU. induction types as [|t ts IH]; [reflexivity|].
      simpl. unfold mergeType at 2. rewrite (H t (or_introl eq_refl)).
      apply IH. intros t' Hin. apply H. now right. }
    rewrite Hm. f_equal. simpl. rewrite existsb_app.
    f_equal. exact Hv.
Qed.

Lemma Union_of_candidates_witness :
  validate (Union [DGuard Number; DGuard String_]) (VString "x") = true /\
  validate (Union [DGuard (Union [DGuard Number; DGuard String_]); DGuard Null]) VNull
  = validate (Union ([DGuard Number; DGuard String_] ++ [DGuard Null])) VNull.
Proof.
  destruct (Union_of_candidates [DGuard Number; DGuard String_] (VString "x"))
    as [H1 _].
  destruct (Union_of_candidates [DGuard Number; DGuard String_] VNull)
    as [_ [_ [_ [_ H5]]]].
  split.
  - apply (H1 (DGuard String_)); [right; now left | reflexivity].
  - apply H5. intros t [<-|[<-|[]]]; reflexivity.
Defined.

(** ** What the merged schema accepts *)

Lemma setProp_NoDup {A : Type} (k : Key) (a : A) (l : list (Key * A)) :
  NoDup (map fst l) -> NoDup (map fst (setProp k a l)).
Proof.
  induction l as [|[k' a'] l IH]; simpl; intros H.
  - constructor; [intros [] | constructor].
  - inversion H as [|? ? Hni Hnd]; subst.
    destruct (Key_eqb_spec k k') as [->|Hne]; simpl.
    + now constructor.
    + constructor; [|now apply IH].
      intros Hin. apply setProp_keys in Hin. destruct Hin as [E|I]; congruence.
Qed.

Lemma foldM_preserves {S A : Type} (P : S -> Prop) (f : S -> A -> option S) (l : list A) :
  (forall s a s', f s a = Some s' -> P s -> P s') ->
  forall s s', foldM f l s = Some s' -> P s -> P s'.
Proof.
  intros Hstep. induction l as [|a l IH]; simpl; intros s s' E Hs.
  - injection E as <-. exact Hs.
  - destruct (f s a) as [s1|] eqn:E1; [|discriminate].
    apply (IH s1 s' E). now apply (Hstep s a).
Qed.

Lemma merged_NoDup (types : list TypeDefinition) (M : list (Key * TypeDefinition)) :
  merged types = Some M -> NoDup (map fst M).
Proof.
  unfold merged, mergeAll.
  destruct (foldM _ types _) as [st|] eqn:E; [|discriminate].
  intros HM.
  assert (Hkey : forall sd uc key uc',
             mergeKey (fun props => Some (Union props)) sd uc key = Some uc' ->
             NoDup (map fst (fst uc)) -> NoDup (map fst (fst uc'))).
  { intros sd [ud cp] key uc' Em Hu. unfold mergeKey in Em. simpl in Hu.
    destruct (lookup key ud); injection Em as <-; simpl; now apply setProp_NoDup. }
  assert (Htype : forall s t s',
             mergeType (fun props => Some (Union props)) s t = Some s' ->
             NoDup (map fst (udOf s)) -> NoDup (map fst (udOf s'))).
  { intros s t s' Et Hs. unfold mergeType in Et.
    destruct (schemaOf t) as [sd|]; [|now injection Et as <-].
    destruct (foldM _ (defKeys sd) _) as [[ud' cp']|] eqn:Ek; [|discriminate].
    injection Et as <-. unfold udOf at 1. simpl.
    exact (foldM_preserves (fun uc => NoDup (map fst (fst uc))) _ (defKeys sd)
                           (Hkey sd) _ _ Ek Hs). }
  assert (H : NoDup (map fst (udOf st))).
  { apply (foldM_preserves (fun st => NoDup (map fst (udOf st))) _ types
                           Htype _ _ E). constructor. }
  unfold udOf in H. now rewrite HM in H.
Qed.

Lemma widen_none (ds : list TypeDefinition) : widen ds = None <-> ds = [].
Proof. destruct ds as [|d [|d' ds]]; simpl; split; congruence. Qed.

(** X15. The merged schema of a union accepts a plain object exactly when
    the own keys of the object are the keys that some schema candidate
    declares, all of them, and each own value validates against what the
    candidates give its key: the definition of the only candidate that
    declares the key, or the union of the definitions of those that do.
    So an object that draws its keys from several candidates is accepted
    although no candidate accepts it, and an object that lacks a key
    declared by any candidate is not accepted through the merge. *)
Theorem merged_schema_accepts (types : list TypeDefinition)
        (M : list (Key * TypeDefinition)) (obj : Value)
        (Hcand : forall t sd, In t types -> schemaOf t = Some sd -> NoDup (defKeys sd))
        (HM : merged types = Some M)
        (Hplain : isPlainObject obj = true)
        (Hobj : NoDup (ownKeys obj)) :
  validate (unionSchema (merged types)) obj = true <->
  (forall k, In k (ownKeys obj) <-> propsFor k types <> []) /\
  (forall k, In k (ownKeys obj) ->
             exists t, widen (propsFor k types) = Some t /\
                       validateValue (getOwn obj k) t = true).
Proof.
  pose proof (merged_lookup types M Hcand HM) as HL.
  pose proof (merged_NoDup types M HM) as HN.
  assert (HK : forall k, In k (map fst M) <-> propsFor k types <> []).
  { intros k. rewrite <- widen_none, <- HL. split.
    - intros Hin E. now apply lookup_none in E.
    - intros Hne. destruct (in_dec (fun a b => reflect_dec _ _ (Key_eqb_spec a b))
                                   k (map fst M)) as [I|NI]; [exact I|].
      apply lookup_none in NI. contradiction. }
  assert (HG : forall k, getDef (mkSchema M []) k =
                         match widen (propsFor k types) with
                         | Some t => t
                         | None => DLit VUndefined
                         end).
  { intros k. unfold getDef. simpl. now rewrite app_nil_r, HL. }
  rewrite HM. simpl. unfold validateObject. rewrite validateObjectGen_true.
  unfold defKeys. simpl. split.
  - intros [_ [[F|Hl] [Hk Hv]]]; [discriminate|].
    assert (Hset : forall k, In k (ownKeys obj) <-> In k (map fst M))
      by (apply same_keys; auto).
    split.
    + intros k. now rewrite Hset.
    + intros k Hin. destruct (Hv k Hin) as [[F _]|E]; [discriminate|].
      rewrite HG in E.
      destruct (widen (propsFor k types)) as [t|] eqn:Ew.
      * now exists t.
      * exfalso. apply widen_none in Ew. apply (proj1 (HK k)); [|exact Ew].
        now apply Hset.
  - intros [Hset Hv].
    assert (Hset' : forall k, In k (ownKeys obj) <-> In k (map fst M))
      by (intros k; now rewrite Hset, HK).
    apply same_keys in Hset'; auto. destruct Hset' as [Hl Hi].
    repeat apply conj; auto.
    intros k Hin. right. rewrite HG.
    destruct (Hv k Hin) as [t [Ew Et]]. now rewrite Ew.
Qed.

Lemma merged_schema_accepts_witness :
  validate
    (unionSchema (merged [DShape (mkSchema [(KString "a", DGuard Number)] []);
                          DShape (mkSchema [(KString "b", DGuard String_)] [])]))
    (VObject 1 false [(KString "a", VNumber 1); (KString "b", VString "x")]) = true /\
  existsb (fun type =>
             validateValue
               (VObject 1 false [(KString "a", VNumber 1); (KString "b", VString "x")]) type)
          [DShape (mkSchema [(KString "a", DGuard Number)] []);
           DShape (mkSchema [(KString "b", DGuard String_)] [])] = false.
Proof.
  split; [|reflexivity].
  assert (Na : NoDup [KString "a"]) by (constructor; [intros []|constructor]).
  assert (Nb : NoDup [KString "b"]) by (constructor; [intros []|constructor]).
  assert (Nab : NoDup [KString "a"; KString "b"]).
  { constructor; [intros [E|[]]; discriminate | exact Nb]. }
  apply (merged_schema_accepts
           [DShape (mkSchema [(KString "a", DGuard Number)] []);
            DShape (mkSchema [(KString "b", DGuard String_)] [])]
           [(KString "a", DGuard Number); (KString "b", DGuard String_)]).
  - intros t sd [<-|[<-|[]]] [= <-]; assumption.
  - reflexivity.
  - reflexivity.
  - exact Nab.
  - split.
    + intros k. split.
      * intros [<-|[<-|[]]]; vm_compute; discriminate.
      * intros Hne. unfold propsFor in Hne. simpl in Hne.
        unfold includes in Hne. simpl in Hne.
        destruct (Key_eqb_spec k (KString "a")) as [Ea|Ha]; [left; now symmetry|].
        destruct (Key_eqb_spec k (KString "b")) as [Eb|Hb]; [right; left; now symmetry|].
        simpl in Hne. now elim Hne.
    + intros k [<-|[<-|[]]]; eexists; split; reflexivity.
Defined.

(** ** What the transforms return *)

(** X16. For an object whose own properties are writable and a definition
    whose guards return on the properties they are declared for,
    [transformObject] returns a new, unfrozen object, distinct from the
    object it was given, with the same own keys in the same order; the
    value under a key is a result of the transform of the guard
    [definition[key]] on the property, or the property itself when
    [definition[key]] is not a guard.  Anything that is not an object, and
    [null], comes back as it is. *)
Theorem transformObject_copies (obj : Value) (d : SchemaDefinition) (s : Ref)
        (Hobject : JSType_eqb (typeof obj) TObject = true)
        (Hnull : obj <> VNull)
        (Hwritable : isFrozen obj = false)
        (Hguards : forall k g s1, In k (ownKeys obj) -> getDef d k = DGuard g ->
                                  exists v s2, transform g (getOwn obj k) s1 = Normal v s2) :
  (exists entries s',
      transformObject obj d s = Normal (created obj s entries) s' /\
      refOf (created obj s entries) = Some s /\
      isFrozen (created obj s entries) = false /\
      ownKeys (created obj s entries) = ownKeys obj /\
      (forall r, refOf obj = Some r -> r <> s ->
                 strict_eq (created obj s entries) obj = false) /\
      Forall (fun kv =>
                match getDef d (fst kv) with
                | DGuard g => exists s1 s2,
                    transform g (getOwn obj (fst kv)) s1 = Normal (snd kv) s2
                | _ => snd kv = getOwn obj (fst kv)
                end) entries) /\
  (forall v, JSType_eqb (typeof v) TObject = false \/ v = VNull ->
             transformObject v d s = Normal v s).
Proof.
  split; [|intros v Hv; now apply transformObject_passthrough].
  destruct (transformObject_writable obj d s Hobject Hnull Hwritable Hguards)
    as [entries [s' [E [Hr [Hk Hall]]]]].
  exists entries, s'. repeat apply conj; auto.
  - destruct obj; try reflexivity. destruct inheritedTag; reflexivity.
  - intros r Ho Hne.
    destruct obj; simpl in *; try discriminate; injection Ho as ->;
      try (destruct inheritedTag); simpl;
      apply Nat.eqb_neq; congruence.
Qed.

Lemma transformObject_copies_witness :
  exists entries s',
    transformObject (VArray 1 false [VString "x"])
                    (mkSchema [(KString "0", DGuard String_)] []) 5
    = Normal (created (VArray 1 false [VString "x"]) 5 entries) s' /\
    ownKeys (created (VArray 1 false [VString "x"]) 5 entries)
    = [KString "0"; KString "length"].
Proof.
  destruct (transformObject_copies (VArray 1 false [VString "x"])
              (mkSchema [(KString "0", DGuard String_)] []) 5 eq_refl)
    as [[entries [s' [E [_ [_ [Hk _]]]]]] _].
  - discriminate.
  - reflexivity.
  - intros k g s1 _ Hg. destruct (Key_eqb k (KString "0")) eqn:Ek.
    + unfold getDef in Hg. simpl in Hg. rewrite Ek in Hg. injection Hg as <-.
      eexists. eexists. reflexivity.
    + unfold getDef in Hg. simpl in Hg. rewrite Ek in Hg. discriminate.
  - exists entries, s'. split; [exact E | exact Hk].
Defined.

Lemma mapM_pure {A B : Type} (f : A -> M B) (h : A -> B) (l : list A) :
  (forall a s, In a l -> f a s = Normal (h a) s) ->
  forall s, mapM f l s = Normal (map h l) s.
Proof.
  induction l as [|a l IH]; intros H s; simpl; [reflexivity|].
  unfold bind. rewrite (H a s (or_introl eq_refl)).
  rewrite IH; [reflexivity|]. intros a' s' Hin. apply H. now right.
Qed.

Lemma map_getOwn (l : list (Key * Value)) :
  forall l0, (forall k v, In (k, v) l -> lookup k l0 = Some v) ->
             map (fun k => (k, match lookup k l0 with
                               | Some v => v
                               | None => VUndefined
                               end)) (map fst l) = l.
Proof.
  intros l0 H. induction l as [|[k v] l IH]; simpl; [reflexivity|].
  rewrite (H k v (or_introl eq_refl)). f_equal.
  apply IH. intros k' v' Hin. apply H. now right.
Qed.

(** X17. When the guards of a definition leave their values as they are,
    as the leaves do, the transform of [Schema] returns a copy: a new
    unfrozen object with exactly the own properties of the object given,
    which itself must have writable properties. *)
Theorem Schema_transform_copies (d : SchemaDefinition) (r : Ref)
        (entries : list (Key * Value)) (s : Ref)
        (Hkeys : NoDup (map fst entries))
        (Hdefault : forall k g v s', getDef d k = DGuard g -> transform g v s' = Normal v s') :
  transform (Schema d) (VObject r false entries) s = Normal (VObject s false entries) (S s).
Proof.
  simpl. unfold transformObject. simpl. unfold bind at 1. simpl. unfold bind at 1.
  rewrite (mapM_pure _ (fun k => (k, getOwn (VObject r false entries) k))).
  - simpl. unfold ownKeys, getOwn. simpl. unfold ret.
    rewrite (map_getOwn entries entries); [reflexivity|].
    intros k v Hin. now apply lookup_in_nodup.
  - intros k s' _. unfold transformEntry, bind, assignOver. simpl.
    destruct (getDef d k) as [g|sd|lit] eqn:Eg; [|reflexivity|reflexivity].
    now rewrite (Hdefault k g _ s' Eg).
Qed.

Lemma Schema_transform_copies_witness :
  transform SchemaA
            (VObject 1 false [(KString "a", VNumber 1); (KString "b", VString "x")]) 5
  = Normal (VObject 5 false [(KString "a", VNumber 1); (KString "b", VString "x")]) 6.
Proof.
  apply (Schema_transform_copies
           (mkSchema [(KString "a", DGuard Number); (KString "b", DGuard String_)] [])).
  - constructor; [intros [E|[]]; discriminate|].
    constructor; [intros []|constructor].
  - intros k g v s' Hg. unfold getDef in Hg. simpl in Hg.
    destruct (Key_eqb k (KString "a")); [injection Hg as <-; reflexivity|].
    destruct (Key_eqb k (KString "b")); [injection Hg as <-; reflexivity|].
    discriminate.
Defined.

Lemma core_transforms_total_witness :
  exists r s',
    transform (Schema (mkSchema [(KString "a", DGuard Number)] []))
              (VObject 1 false [(KString "a", VNumber 1)]) 5 = Normal r s'.
Proof.
  destruct core_transforms_total as [Hleaf [_ [_ [_ [_ [_ [_ [_ [Hschema _]]]]]]]]].
  apply Hschema; [|reflexivity]. intros k. unfold getDef. simpl.
  destruct (Key_eqb k (KString "a")); [|exact I].
  exact (Hleaf Number (or_intror (or_introl eq_refl))).
Defined.

(** X18. [Array(T).transform] with a guard [T] whose transform is a pure
    function returns a new array holding the transformed elements in
    order; the array given is not touched.  What is not an array comes
    back as it is, and so does every value, the very same array included,
    when [T] is not a guard. *)
Theorem Array_transform_maps (g : TypeGuard) (h : Value -> Value)
        (Hpure : forall v s, transform g v s = Normal (h v) s) :
  (forall r f elems s,
      transform (Array (DGuard g)) (VArray r f elems) s
      = Normal (VArray s false (map h elems)) (S s)) /\
  (forall v s, isArray v = false -> transform (Array (DGuard g)) v s = Normal v s) /\
  (forall type v s, isTypeGuard type = false -> transform (Array type) v s = Normal v s).
Proof.
  repeat apply conj.
  - intros r f elems s. simpl. unfold bind at 1. simpl. unfold bind at 1.
    rewrite (mapM_pure _ h); [reflexivity|]. intros a s' _. apply Hpure.
  - intros v s Hv. destruct v; try discriminate Hv; reflexivity.
  - intros [g'|d|lit] v s Ht; try discriminate Ht; destruct v; reflexivity.
Qed.

Lemma Array_transform_maps_witness :
  transform (Array (DGuard Number)) (VArray 1 true [VNumber 1; VNumber 2]) 7
  = Normal (VArray 7 false [VNumber 1; VNumber 2]) 8.
Proof.
  destruct (Array_transform_maps Number (fun v => v)) as [H _].
  - reflexivity.
  - apply H.
Defined.

(** ** StringArray and the split of a string *)

Lemma append_empty_r (s : string) : (s ++ "")%string = s.
Proof. induction s as [|c s IH]; simpl; [reflexivity | now rewrite IH]. Qed.

Lemma append_assoc (a b c : string) : ((a ++ b) ++ c)%string = (a ++ (b ++ c))%string.
Proof. induction a as [|x a IH]; simpl; [reflexivity | now rewrite IH]. Qed.

Lemma revString_append (cur : list ascii) (acc t : string) :
  (revString cur acc ++ t)%string = revString cur (acc ++ t)%string.
Proof.
  revert acc. induction cur as [|c cur IH]; intros acc; simpl; [reflexivity|].
  now rewrite IH.
Qed.

Lemma prefix_split (d s : string) :
  String.prefix d s = true -> exists s', s = (d ++ s')%string.
Proof.
  revert s. induction d as [|a d IH]; intros s H.
  - now exists s.
  - destruct s as [|b s]; [discriminate|]. simpl in H.
    destruct (ascii_dec a b) as [E|]; [subst b|discriminate].
    destruct (IH s H) as [s' ->]. now exists s'.
Qed.

Lemma splitFrom_skip (d t s' : string) (cur : list ascii) :
  splitFrom d (String.length t) cur (t ++ s')%string = splitFrom d O cur s'.
Proof.
  induction t as [|c t IH]; simpl; [reflexivity | exact IH].
Qed.

Lemma splitFrom_nonempty (d : string) (n : nat) (cur : list ascii) (s : string) :
  splitFrom d n cur s <> [].
Proof.
  revert n cur. induction s as [|c s IH]; intros n cur; cbn [splitFrom];
    [discriminate|].
  destruct n; [|apply IH].
  destruct (String.prefix d (String c s)); [discriminate | apply IH].
Qed.

Lemma length_append (a b : string) :
  String.length (a ++ b)%string = String.length a + String.length b.
Proof. induction a as [|c a IH]; simpl; [reflexivity | now rewrite IH]. Qed.

Lemma concat_cons (sep x : string) (l : list string) :
  l <> [] -> String.concat sep (x :: l) = (x ++ sep ++ String.concat sep l)%string.
Proof. destruct l; [congruence | reflexivity]. Qed.

Lemma concat_splitFrom (c0 : ascii) (d' : string) (n : nat) :
  forall s cur, String.length s <= n ->
  String.concat (String c0 d') (splitFrom (String c0 d') O cur s)
  = (revString cur "" ++ s)%string.
Proof.
  induction n as [|n IH]; intros s cur Hn.
  - destruct s; [|simpl in Hn; lia]. simpl. now rewrite append_empty_r.
  - destruct s as [|c rest]; [simpl; now rewrite append_empty_r|].
    cbn [splitFrom].
    destruct (String.prefix (String c0 d') (String c rest)) eqn:Ep.
    + destruct (prefix_split _ _ Ep) as [s' Es]. simpl in Es.
      injection Es as -> ->.
      change (String.length (String c0 d') - 1) with (String.length d' - 0).
      rewrite Nat.sub_0_r, splitFrom_skip.
      rewrite concat_cons by apply splitFrom_nonempty.
      rewrite IH by (simpl in Hn; rewrite length_append in Hn; lia).
      reflexivity.
    + rewrite IH by (simpl in Hn; lia).
      simpl. rewrite !revString_append. reflexivity.
Qed.

Lemma concat_characters (s : string) : String.concat "" (characters s) = s.
Proof.
  induction s as [|c s IH]; [reflexivity|].
  simpl. destruct (characters s) as [|y ys] eqn:E.
  - destruct s; [reflexivity | discriminate].
  - simpl in IH. simpl. now rewrite IH.
Qed.

Lemma concat_split (s delimiter : string) :
  String.concat delimiter (split s delimiter) = s.
Proof.
  destruct delimiter as [|c0 d']; [apply concat_characters|].
  unfold split. now rewrite (concat_splitFrom c0 d' (String.length s) s []).
Qed.

(** X19. [StringArray] accepts strings only, every string when no type is
    given, and otherwise the strings whose parts all validate.  Its
    transform without a guard returns a new array of the parts, which
    joined by the delimiter give the string back; with a guard whose
    transform is a pure function it returns a new array of the
    transformed parts.  Any other value comes back as it is. *)
Theorem StringArray_parts (delimiter : string) :
  (forall s, validate (StringArray (DLit VUndefined) delimiter) (VString s) = true) /\
  (forall type s, isUndefinedDef type = false ->
     validate (StringArray type delimiter) (VString s)
     = forallb (fun part => validateValue (VString part) type) (split s delimiter)) /\
  (forall type v, hasType TString v = false ->
     validate (StringArray type delimiter) v = false /\
     forall st, transform (StringArray type delimiter) v st = Normal v st) /\
  (forall type s st, isTypeGuard type = false ->
     transform (StringArray type delimiter) (VString s) st
     = Normal (VArray st false (map VString (split s delimiter))) (S st)) /\
  (forall s, String.concat delimiter (split s delimiter) = s) /\
  (forall g h s st, (forall v s', transform g v s' = Normal (h v) s') ->
     transform (StringArray (DGuard g) delimiter) (VString s) st
     = Normal (VArray (S st) false (map (fun part => h (VString part)) (split s delimiter)))
              (S (S st))).
Proof.
  repeat apply conj.
  - reflexivity.
  - intros type s Ht. simpl. now rewrite Ht.
  - intros type v Hv. destruct v; try discriminate Hv; split; reflexivity.
  - intros [g|d|lit] s st Ht; try discriminate Ht; reflexivity.
  - intros s. apply concat_split.
  - intros g h s st Hpure. simpl. unfold bind at 1. simpl. unfold bind at 1. simpl.
    unfold bind at 1. rewrite (mapM_pure _ h) by (intros; apply Hpure).
    now rewrite map_map.
Qed.

Lemma StringArray_parts_witness :
  transform (StringArray (DGuard String_) "|") (VString "1|2|3.33") 0
  = Normal (VArray 1 false [VString "1"; VString "2"; VString "3.33"]) 2.
Proof.
  destruct (StringArray_parts "|") as [_ [_ [_ [_ [_ H]]]]].
  apply (H String_ (fun v => v)). reflexivity.
Defined.

(** ** The number leaves *)

(** X20. [Number] accepts exactly the values that one of
    [PositiveNumber], [NegativeNumber], [Const(0)] and [NaN] accepts, and
    no value is accepted by two of them; in particular neither
    [PositiveNumber] nor [NegativeNumber] accepts [0] or [NaN].  The same
    holds of [BigInt] with [PositiveBigInt], [NegativeBigInt] and the
    zero. *)
Theorem number_leaves_partition (v : Value) :
  validate Number v =
    validate PositiveNumber v || validate NegativeNumber v ||
    validate (Const (VNumber 0)) v || validate NaN v /\
  validate PositiveNumber v && validate NegativeNumber v = false /\
  validate PositiveNumber v && validate (Const (VNumber 0)) v = false /\
  validate PositiveNumber v && validate NaN v = false /\
  validate NegativeNumber v && validate (Const (VNumber 0)) v = false /\
  validate NegativeNumber v && validate NaN v = false /\
  validate (Const (VNumber 0)) v && validate NaN v = false /\
  validate BigInt v =
    validate PositiveBigInt v || validate NegativeBigInt v ||
    validate (Const (VBigInt 0)) v /\
  validate PositiveBigInt v && validate NegativeBigInt v = false /\
  validate PositiveBigInt v && validate (Const (VBigInt 0)) v = false /\
  validate NegativeBigInt v && validate (Const (VBigInt 0)) v = false.
Proof.
  destruct v; try destruct n; simpl; repeat apply conj; reflexivity.
Qed.

(** ** Objects used as literals, a union of one schema, and key order *)

(** X21. A function, or an object that is neither an array nor a plain
    object, used as a definition matches only itself: a value of the same
    [typeof] with the same identity. *)
Theorem identity_literals (v : Value) :
  (forall r, validate (Const (VFunction r)) v = true <-> v = VFunction r) /\
  (forall r f cls t own,
      validate (Const (VInstance r f cls t own)) v = true <->
      typeof v = TObject /\ refOf v = Some r).
Proof.
  split.
  - intros r. simpl. destruct v; simpl; try (split; [discriminate | intros E; discriminate E]).
    rewrite Nat.eqb_eq. split; [intros -> | intros [= ->]]; reflexivity.
  - intros r f cls t own. simpl.
    destruct v; simpl;
      try (split; [discriminate | intros [E _]; discriminate E]);
      try (split; [discriminate | intros [_ E]; discriminate E]);
      rewrite Nat.eqb_eq;
      (split; [intros ->; split; reflexivity | intros [_ [= ->]]; reflexivity]).
Qed.

Lemma merged_single (d : SchemaDefinition) (M : list (Key * TypeDefinition)) :
  NoDup (defKeys d) -> merged [DGuard (Schema d)] = Some M ->
  (forall k, In k (map fst M) <-> In k (defKeys d)) /\
  (forall k, In k (defKeys d) -> lookup k M = Some (getDef d k)).
Proof.
  intros Hd HM.
  assert (Hc : forall t sd, In t [DGuard (Schema d)] -> schemaOf t = Some sd ->
                            NoDup (defKeys sd)).
  { intros t sd [<-|[]] [= <-]. exact Hd. }
  pose proof (merged_lookup _ M Hc HM) as HL.
  destruct (merged_spec [DGuard (Schema d)]) as [_ HK]. specialize (HK M HM).
  split.
  - intros k. rewrite HK. split.
    + intros [t [sd [[<-|[]] [[= <-] Hin]]]]. exact Hin.
    + intros Hin. exists (DGuard (Schema d)), d. repeat split; [now left | exact Hin].
  - intros k Hin. rewrite HL. unfold propsFor. simpl.
    apply includes_In in Hin. now rewrite Hin.
Qed.

(** X22. A union of a single schema accepts exactly what the schema
    accepts: with one candidate the merged schema adds nothing. *)
Theorem Union_single_schema (d : SchemaDefinition) (Hkeys : NoDup (defKeys d)) :
  forall v, validate (Union [DGuard (Schema d)]) v = validate (Schema d) v.
Proof.
  intros v. rewrite Union_equation, validate_unionGuard. simpl.
  rewrite orb_false_r.
  destruct (validateObject v d false) eqn:Ev; [apply orb_true_r|].
  rewrite orb_false_r. apply andb_false_iff. right.
  destruct (merged [DGuard (Schema d)]) as [M|] eqn:HM; [|reflexivity].
  destruct (merged_single d M Hkeys HM) as [HK HL].
  apply not_true_is_false. intros Hm. apply not_true_iff_false in Ev. apply Ev.
  unfold validateObject in *. apply validateObjectGen_true in Hm.
  apply validateObjectGen_true.
  destruct Hm as [Hp [[F|Hl] [Hi Hv]]]; [discriminate|].
  unfold defKeys in Hl, Hi. simpl in Hl, Hi.
  repeat apply conj; auto.
  - right. rewrite Hl.
    pose proof (merged_NoDup _ M HM) as HN.
    apply Nat.le_antisymm; apply NoDup_incl_length; auto; intros k Hk; now apply HK.
  - intros k Hin. apply HK. now apply Hi.
  - intros k Hin. destruct (Hv k Hin) as [[F _]|E]; [discriminate|]. right.
    unfold getDef in E. simpl in E. rewrite app_nil_r in E.
    rewrite (HL k) in E; [exact E|]. apply HK. now apply Hi.
Qed.

Lemma Union_single_schema_witness :
  validate (Union [DGuard (Schema SchemaABC)]) (VObject 1 false [(KString "a", VNumber 1)])
  = validate (Schema SchemaABC) (VObject 1 false [(KString "a", VNumber 1)]).
Proof.
  apply Union_single_schema.
  constructor; [intros [E|[E|[]]]; discriminate|].
  constructor; [intros [E|[]]; discriminate|].
  constructor; [intros []|constructor].
Defined.

Lemma forallb_Permutation {A : Type} (f : A -> bool) (l l' : list A) :
  Permutation l l' -> forallb f l = forallb f l'.
Proof.
  induction 1 as [|x l l' _ IH|x y l|l l' l'' _ IH1 _ IH2]; simpl.
  - reflexivity.
  - now rewrite IH.
  - destruct (f x), (f y); reflexivity.
  - now rewrite IH1.
Qed.

Lemma lookup_Permutation {A : Type} (k : Key) (l l' : list (Key * A)) :
  NoDup (map fst l) -> Permutation l l' -> lookup k l = lookup k l'.
Proof.
  intros Hnd Hp.
  assert (Hnd' : NoDup (map fst l')).
  { apply (Permutation_NoDup (l := map fst l)); [now apply Permutation_map | exact Hnd]. }
  destruct (lookup k l) as [a|] eqn:E.
  - symmetry. apply lookup_in_nodup; [exact Hnd'|].
    apply (Permutation_in _ Hp). now apply lookup_some_in.
  - symmetry. apply lookup_none. apply lookup_none in E. intros Hin. apply E.
    apply (Permutation_in (l := map fst l')); [|exact Hin].
    apply Permutation_map. now apply Permutation_sym.
Qed.

Lemma existsb_Permutation {A : Type} (f : A -> bool) (l l' : list A) :
  Permutation l l' -> existsb f l = existsb f l'.
Proof.
  induction 1 as [|x l l' _ IH|x y l|l l' l'' _ IH1 _ IH2]; simpl.
  - reflexivity.
  - now rewrite IH.
  - destruct (f x), (f y); reflexivity.
  - now rewrite IH1.
Qed.

(** X23. Validation does not depend on the order of the keys, in the
    object or in the definition: objects with the same properties in
    another order, and definitions with the same entries in another
    order, validate alike in exact and in partial mode. *)
Theorem key_order_irrelevant (r r' : Ref) (f f' : bool)
        (entries entries' : list (Key * Value))
        (o o' i : list (Key * TypeDefinition)) (partial : bool)
        (Hobj : NoDup (map fst entries)) (Hperm : Permutation entries entries')
        (Hdef : NoDup (map fst o)) (Hperm' : Permutation o o') :
  validateObject (VObject r f entries) (mkSchema o i) partial =
  validateObject (VObject r' f' entries') (mkSchema o' i) partial.
Proof.
  unfold validateObject, validateObjectGen, ownKeys, defKeys, getOwn. simpl.
  assert (Pk : Permutation (map fst entries) (map fst entries'))
    by now apply Permutation_map.
  assert (Pd : Permutation (map fst o) (map fst o')) by now apply Permutation_map.
  rewrite (Permutation_length Pk), (Permutation_length Pd).
  f_equal; [f_equal|].
  - rewrite (forallb_Permutation _ _ _ Pk). apply forallb_pointwise.
    intros k. unfold includes. now apply existsb_Permutation.
  - rewrite (forallb_Permutation _ _ _ Pk). apply forallb_pointwise.
    intros k. rewrite (lookup_Permutation k entries entries' Hobj Hperm).
    unfold getDef. simpl. rewrite !lookup_app.
    now rewrite (lookup_Permutation k o o' Hdef Hperm').
Qed.

Lemma key_order_irrelevant_witness :
  validateObject
    (VObject 1 false [(KString "a", VNumber 1); (KString "b", VString "x")])
    (mkSchema [(KString "a", DGuard Number); (KString "b", DGuard String_)] []) false
  = validateObject
      (VObject 2 true [(KString "b", VString "x"); (KString "a", VNumber 1)])
      (mkSchema [(KString "b", DGuard String_); (KString "a", DGuard Number)] []) false.
Proof.
  apply key_order_irrelevant.
  - constructor; [intros [E|[]]; discriminate|].
    constructor; [intros []|constructor].
  - apply perm_swap.
  - constructor; [intros [E|[]]; discriminate|].
    constructor; [intros []|constructor].
  - apply perm_swap.
Defined.

(** ** The recursion of Union ends *)

(** X25. [Union] calls itself on the definitions that candidates give to a
    shared key, and these sit strictly deeper in the candidates than the
    candidates themselves: on every list of candidates the recursion
    ends, at a depth bounded by the nesting of schemas in the candidates,
    and the guard it returns is the one built over the definition merged
    with [Union] as the recursive call. *)
Theorem Union_recursion_ends (types : list TypeDefinition) :
  (exists n, forall m, n <= m -> Union_fuel m types = Some (Union types)) /\
  Union types = unionGuard types (merged types) /\
  (forall t sd k, In t types -> schemaOf t = Some sd -> In k (defKeys sd) ->
                  rank (getDef sd k) < rank t).
Proof.
  repeat apply conj.
  - exists (S (maxRank types)). intros m Hm. apply Union_fuel_enough. lia.
  - apply Union_equation.
  - intros t sd k _ Hs Hk. now apply rank_property.
Qed.

Lemma Union_recursion_ends_witness :
  rank (getDef (mkSchema [(KString "a", DGuard Number); (KString "b", DGuard String_)] [])
               (KString "a"))
  < rank (DGuard SchemaA).
Proof.
  destruct (Union_recursion_ends [DGuard SchemaA; DGuard SchemaB]) as [_ [_ H]].
  apply (H (DGuard SchemaA)
           (mkSchema [(KString "a", DGuard Number); (KString "b", DGuard String_)] [])).
  - now left.
  - reflexivity.
  - now left.
Defined.
